(** * serial_bridge.py: the wind-speed relay, embedded and verified

    The program is one HTTP request handler class ([WindSpeedHandler]) and
    a start-up routine ([main]).  The handler reads a JSON body, coerces
    the field [windSpeedKmh] to a float, formats it with [.1f] and writes
    the line to a serial port shared by all handlers.

    Layout of the development:
    - the Python values the handler manipulates (bytes, str, exceptions,
      floats as IEEE-754 binary64 through [SpecFloat], JSON values);
    - the builtins it calls ([int], [float], the [.1f] format,
      [json.dumps], header lookup), written out on those values;
    - a state-and-exception monad for the handler's effects (the request
      stream, the response being sent, the serial device);
    - the handler methods and the dispatch of [BaseHTTPRequestHandler];
    - the threads that reach the serial port, and the process life cycle;
    - the properties.

    Python [str] is modelled by [string], one character per code point,
    so code points stay below 256; [bytes] is [list byte]. *)

From Stdlib Require Import ZArith List String Ascii Bool Lia.
From Stdlib Require Import Floats.SpecFloat.
From Stdlib Require Import Strings.Byte DecimalString DecimalN.
From Stdlib Require Import Sorting.Permutation.
Import ListNotations.

Set Warnings "-register-all".

Open Scope string_scope.
Open Scope Z_scope.

(** ** Bytes and string literals *)

Definition bytes := list byte.
Bind Scope list_scope with bytes.

(** The literal [b"..."] of the source. *)
Definition b (s : string) : bytes := list_byte_of_string s.

Definition dquote : ascii := ascii_of_nat 34.

(** Literals of the source that contain a double quote are written here
    with an apostrophe in its place: [q "{'status':'ok'}"] is the text
    [{"status":"ok"}]. *)
Fixpoint q (s : string) : string :=
  match s with
  | EmptyString => EmptyString
  | String c r => String (if Ascii.eqb c "'" then dquote else c) (q r)
  end.

Definition code (c : ascii) : Z := Z.of_N (N_of_ascii c).
Definition chr (n : Z) : ascii := ascii_of_N (Z.to_N n).

Definition is_digit (c : ascii) : bool := (48 <=? code c) && (code c <=? 57).
Definition digit_val (c : ascii) : Z := code c - 48.

(** [str.encode("utf-8")] on code points below 256: one byte below 128,
    two bytes from 128 on. *)
Fixpoint encode_utf8 (s : string) : bytes :=
  match s with
  | EmptyString => []
  | String c r =>
      if code c <? 128 then byte_of_ascii c :: encode_utf8 r
      else byte_of_ascii (chr (Z.lor 192 (Z.shiftr (code c) 6)))
           :: byte_of_ascii (chr (Z.lor 128 (Z.land (code c) 63)))
           :: encode_utf8 r
  end.

(** ** Exceptions *)

Inductive exc_type : Type :=
| T_JSONDecodeError | T_UnicodeDecodeError | T_ValueError | T_KeyError
| T_TypeError | T_OverflowError | T_RecursionError | T_AssertionError
| T_SerialException | T_AttributeError.

(** The exceptions the program can meet.  Only the text of the two that
    the handler prints with [str(error)] is kept. *)
Inductive exn : Type :=
| JSONDecodeError | UnicodeDecodeError | ValueError | KeyError | TypeError
| OverflowError | RecursionError | AttributeError
| AssertionError                     (* raised by a bare [assert]: no argument *)
| SerialException (msg : string).

Definition type_of (e : exn) : exc_type :=
  match e with
  | JSONDecodeError => T_JSONDecodeError
  | UnicodeDecodeError => T_UnicodeDecodeError
  | ValueError => T_ValueError
  | KeyError => T_KeyError
  | TypeError => T_TypeError
  | OverflowError => T_OverflowError
  | RecursionError => T_RecursionError
  | AttributeError => T_AttributeError
  | AssertionError => T_AssertionError
  | SerialException _ => T_SerialException
  end.

Definition exc_type_eqb (x y : exc_type) : bool :=
  match x, y with
  | T_JSONDecodeError, T_JSONDecodeError | T_UnicodeDecodeError, T_UnicodeDecodeError
  | T_ValueError, T_ValueError | T_KeyError, T_KeyError | T_TypeError, T_TypeError
  | T_OverflowError, T_OverflowError | T_RecursionError, T_RecursionError
  | T_AssertionError, T_AssertionError | T_SerialException, T_SerialException
  | T_AttributeError, T_AttributeError => true
  | _, _ => false
  end.

(** The class hierarchy: [JSONDecodeError] and [UnicodeDecodeError] derive
    from [ValueError]; the other classes here are unrelated. *)
Definition issubclass (x y : exc_type) : bool :=
  exc_type_eqb x y ||
  match x, y with
  | T_JSONDecodeError, T_ValueError | T_UnicodeDecodeError, T_ValueError => true
  | _, _ => false
  end.

(** [except (c1, c2, ...)] catches [e] when it is an instance of one of the
    classes. *)
Definition caught_by (classes : list exc_type) (e : exn) : bool :=
  existsb (issubclass (type_of e)) classes.

(** [str(error)]. *)
Definition str_of_exn (e : exn) : string :=
  match e with
  | SerialException msg => msg
  | _ => EmptyString
  end.

(** Pure computations that may raise. *)
Definition except (A : Type) : Type := (exn + A)%type.

(** ** Floats

    A Python float is an IEEE-754 binary64 value. *)

Definition prec : Z := 53.
Definition emax : Z := 1024.
Definition float := spec_float.

Definition is_finite (x : float) : bool :=
  match x with
  | S754_zero _ | S754_finite _ _ _ => true
  | S754_infinity _ | S754_nan => false
  end.

(** [float(n)] for an int: the nearest double, ties to even; an int beyond
    the range of doubles raises OverflowError. *)
Definition float_of_int (n : Z) : except float :=
  match binary_normalize prec emax n 0 false with
  | S754_infinity _ => inl OverflowError
  | x => inr x
  end.

(** The double nearest to [(-1)^neg * m * 10^e] (ties to even, overflow to
    infinity, underflow to subnormals and zero): the value the string
    conversion returns for the digits [m] and decimal exponent [e]. *)
Definition round_decimal (neg : bool) (m e : Z) : float :=
  match m with
  | Zpos p =>
      if 0 <=? e then binary_round prec emax neg (p * Z.to_pos (10 ^ e)) 0
      else
        let '(mz, ez, lz) := SFdiv_core_binary prec emax (Zpos p) 0 (10 ^ (- e)) 0 in
        binary_round_aux prec emax neg mz ez lz
  | _ => S754_zero neg
  end.

(** ** Text to number: what [int(str)] and [float(str)] accept *)

Definition chars (s : string) : list ascii := list_ascii_of_string s.

(** [Py_ISSPACE]: tab, line feed, vertical tab, form feed, carriage return
    and space. *)
Definition Py_ISSPACE (c : ascii) : bool :=
  ((9 <=? code c) && (code c <=? 13)) || (code c =? 32).

(** [Py_UNICODE_ISSPACE] on the code points from 127 to 255. *)
Definition Py_UNICODE_ISSPACE_high (c : ascii) : bool :=
  (code c =? 133) || (code c =? 160).

Definition is_ascii (l : list ascii) : bool := forallb (fun c => code c <? 128) l.

(** The pass both conversions run first on a str that is not pure ASCII:
    a space-like code point becomes a space, and the text is cut after a
    question mark at the first other code point from 127 on (none of them
    is a decimal digit below 256). *)
Fixpoint transform_chars (l : list ascii) : list ascii :=
  match l with
  | [] => []
  | c :: r =>
      if code c <? 127 then c :: transform_chars r
      else if Py_UNICODE_ISSPACE_high c then " "%char :: transform_chars r
      else ["?"%char]
  end.

Definition transform_decimal_and_space (l : list ascii) : list ascii :=
  if is_ascii l then l else transform_chars l.

Fixpoint lstrip (l : list ascii) : list ascii :=
  match l with
  | c :: r => if Py_ISSPACE c then lstrip r else l
  | [] => []
  end.

Definition strip (l : list ascii) : list ascii := rev (lstrip (rev (lstrip l))).

(** The longest prefix of digits, and what follows it. *)
Fixpoint span_digits (l : list ascii) : list ascii * list ascii :=
  match l with
  | c :: r =>
      if is_digit c then let '(ds, rest) := span_digits r in (c :: ds, rest)
      else ([], l)
  | [] => ([], [])
  end.

Definition digits_value (ds : list ascii) : Z :=
  fold_left (fun acc c => 10 * acc + digit_val c) ds 0.

Definition split_sign (l : list ascii) : bool * list ascii :=
  match l with
  | "-"%char :: r => (true, r)
  | "+"%char :: r => (false, r)
  | _ => (false, l)
  end.

(** Underscores may only sit between two digits; they are dropped.
    [prev] is the character before, NUL at the start. *)
Fixpoint drop_underscores (prev : ascii) (l : list ascii) : option (list ascii) :=
  match l with
  | [] => if Ascii.eqb prev "_" then None else Some []
  | c :: r =>
      if Ascii.eqb c "_" then
        if is_digit prev then drop_underscores c r else None
      else if Ascii.eqb prev "_" && negb (is_digit c) then None
      else option_map (cons c) (drop_underscores c r)
  end.

(** The limit on the digits of an int literal read from text. *)
Definition max_str_digits : Z := 4300.

(** [int(s)] in base 10. *)
Definition int_of_str (s : string) : except Z :=
  let '(neg, l) := split_sign (lstrip (transform_decimal_and_space (chars s))) in
  match l with
  | "_"%char :: _ => inl ValueError
  | _ =>
      match drop_underscores "000"%char (rev (lstrip (rev l))) with
      | Some (d :: ds) =>
          if forallb is_digit (d :: ds) then
            if max_str_digits <? Z.of_nat (List.length (d :: ds)) then inl ValueError
            else inr (if neg then - digits_value (d :: ds) else digits_value (d :: ds))
          else inl ValueError
      | _ => inl ValueError
      end
  end.

Definition lower (c : ascii) : ascii :=
  if (65 <=? code c) && (code c <=? 90) then chr (code c + 32) else c.

Definition same_text_nocase (l : list ascii) (s : string) : bool :=
  String.eqb (string_of_list_ascii (map lower l)) s.

(** The spellings of infinity and of not-a-number, in any letter case. *)
Definition parse_inf_or_nan (l : list ascii) : option float :=
  let '(neg, r) := split_sign l in
  if same_text_nocase r "inf" || same_text_nocase r "infinity" then Some (S754_infinity neg)
  else if same_text_nocase r "nan" then Some S754_nan
  else None.

(** An exponent part [e][sign][digits]; without a digit after the [e]
    nothing is consumed. *)
Definition parse_exponent (l : list ascii) : Z * list ascii :=
  match l with
  | c :: r =>
      if Ascii.eqb c "e" || Ascii.eqb c "E" then
        let '(eneg, r1) := split_sign r in
        match span_digits r1 with
        | ([], _) => (0, l)
        | (ds, rest) => ((if eneg then - digits_value ds else digits_value ds), rest)
        end
      else (0, l)
  | [] => (0, [])
  end.

(** A decimal numeral: sign, digits with an optional point (at least one
    digit in all), optional exponent, and nothing after it. *)
Definition parse_decimal (l : list ascii) : option float :=
  let '(neg, r0) := split_sign l in
  let '(ip, r1) := span_digits r0 in
  let '(fp, r2) :=
    match r1 with
    | "."%char :: r => span_digits r
    | _ => ([], r1)
    end in
  match (ip ++ fp)%list with
  | [] => None
  | ds =>
      match parse_exponent r2 with
      | (e, []) => Some (round_decimal neg (digits_value ds) (e - Z.of_nat (List.length fp)))
      | _ => None
      end
  end.

(** [float(s)] for a str. *)
Definition float_of_str (s : string) : except float :=
  match drop_underscores "000"%char (strip (transform_decimal_and_space (chars s))) with
  | None => inl ValueError
  | Some l =>
      match parse_decimal l with
      | Some x => inr x
      | None =>
          match parse_inf_or_nan l with
          | Some x => inr x
          | None => inl ValueError
          end
      end
  end.

(** ** The format [.1f] *)

(** [m * 2^e] in tenths, rounded to the nearest integer, ties to even. *)
Definition tenths (m : positive) (e : Z) : Z :=
  if 0 <=? e then Zpos m * 2 ^ e * 10
  else
    let n := Zpos m * 10 in
    let d := 2 ^ (- e) in
    match 2 * (n mod d) ?= d with
    | Lt => n / d
    | Gt => n / d + 1
    | Eq => if Z.even (n / d) then n / d else n / d + 1
    end.

Definition decimal (n : Z) : string := NilZero.string_of_uint (N.to_uint (Z.to_N n)).

Definition sign_text (neg : bool) : string := if neg then "-" else "".

(** [format(x, ".1f")]. *)
Definition format_1f (x : float) : string :=
  match x with
  | S754_nan => "nan"
  | S754_infinity neg => sign_text neg ++ "inf"
  | S754_zero neg => sign_text neg ++ "0.0"
  | S754_finite neg m e =>
      let t := tenths m e in
      sign_text neg ++ decimal (t / 10) ++ "." ++ decimal (t mod 10)
  end.

(** ** JSON values, as [json.loads] returns them *)

Inductive json : Type :=
| JNull
| JBool (v : bool)
| JInt (n : Z)
| JFloat (x : float)
| JString (s : string)
| JArray (items : list json)
| JObject (members : list (string * json)).

(** A dict keeps one value per key; [members] lists them in insertion
    order. *)
Fixpoint dict_get (d : list (string * json)) (key : string) : option json :=
  match d with
  | [] => None
  | (k, v) :: r => if String.eqb k key then Some v else dict_get r key
  end.

Fixpoint dict_set (d : list (string * json)) (key : string) (v : json) : list (string * json) :=
  match d with
  | [] => [(key, v)]
  | (k, v0) :: r => if String.eqb k key then (k, v) :: r else (k, v0) :: dict_set r key v
  end.

(** [data[key]] with a str key: only a dict can be indexed by a str. *)
Definition getitem (data : json) (key : string) : except json :=
  match data with
  | JObject d =>
      match dict_get d key with
      | Some v => inr v
      | None => inl KeyError
      end
  | _ => inl TypeError
  end.

(** [float(v)]. *)
Definition float_of (v : json) : except float :=
  match v with
  | JInt n => float_of_int n
  | JBool t => float_of_int (if t then 1 else 0)
  | JFloat x => inr x
  | JString s => float_of_str s
  | JNull | JArray _ | JObject _ => inl TypeError
  end.

(** ** [json.dumps] on a dict of str to str *)

Definition hex_digit (n : Z) : ascii :=
  if n <? 10 then chr (48 + n) else chr (87 + n).

(** One character of a str inside the quotes, with [ensure_ascii]. *)
Definition escape_char (c : ascii) : string :=
  let n := code c in
  if n =? 34 then String "\" (String dquote "")
  else if n =? 92 then "\\"
  else if n =? 10 then "\n"
  else if n =? 13 then "\r"
  else if n =? 9 then "\t"
  else if n =? 8 then "\b"
  else if n =? 12 then "\f"
  else if (32 <=? n) && (n <=? 126) then String c ""
  else String "\" (String "u" (String "0" (String "0"
         (String (hex_digit (n / 16)) (String (hex_digit (n mod 16)) ""))))).

Fixpoint escape_chars (s : string) : string :=
  match s with
  | EmptyString => EmptyString
  | String c r => escape_char c ++ escape_chars r
  end.

Definition dumps_str (s : string) : string :=
  String dquote (escape_chars s ++ String dquote "").

Fixpoint dumps_members (d : list (string * string)) : string :=
  match d with
  | [] => ""
  | [(k, v)] => dumps_str k ++ ": " ++ dumps_str v
  | (k, v) :: r => dumps_str k ++ ": " ++ dumps_str v ++ ", " ++ dumps_members r
  end.

Definition json_dumps (d : list (string * string)) : string :=
  "{" ++ dumps_members d ++ "}".

(** ** Request headers *)

(** [str.lower] on code points below 256. *)
Definition str_lower_char (c : ascii) : ascii :=
  let n := code c in
  if ((65 <=? n) && (n <=? 90)) || ((192 <=? n) && (n <=? 222) && negb (n =? 215))
  then chr (n + 32) else c.

Fixpoint str_lower (s : string) : string :=
  match s with
  | EmptyString => EmptyString
  | String c r => String (str_lower_char c) (str_lower r)
  end.

(** [headers.get(name, failobj)]: the first header of that name, letter
    case apart. *)
Fixpoint headers_get (hs : list (string * string)) (name failobj : string) : string :=
  match hs with
  | [] => failobj
  | (k, v) :: r =>
      if String.eqb (str_lower k) (str_lower name) then v else headers_get r name failobj
  end.

(** ** The handler's world and its effects *)

(** The serial device behind [serial.Serial]: [tx] lists, oldest first, the
    data of the [write] calls that returned; [fault], when set, is the
    failure the next [write] meets. *)
Record Serial : Type := mkSerial {
  tx : list bytes;
  fault : option string
}.

(** What a handler has put on its connection. *)
Inductive out : Type :=
| Status (code : Z)
| Header (name value : string)
| EndHeaders
| Body (data : bytes).

(** The mutable state one request runs in: the unread request stream, the
    response so far, and the class attribute [serial_conn] shared by all
    handlers. *)
Record world : Type := mkWorld {
  rfile : bytes;
  wfile : list out;
  serial_conn : option Serial
}.

(** The handler object [self]: its read-only attributes. *)
Record WindSpeedHandler : Type := mkHandler {
  command : string;
  path : string;
  headers : list (string * string);
  version_string : string;
  date_time_string : string
}.

(** State and exceptions: an exception keeps the state reached. *)
Definition M (A : Type) : Type := world -> except A * world.

Definition ret {A} (a : A) : M A := fun w => (inr a, w).

Definition bind {A B} (m : M A) (k : A -> M B) : M B :=
  fun w =>
    match m w with
    | (inr a, w') => k a w'
    | (inl e, w') => (inl e, w')
    end.

Definition raise {A} (e : exn) : M A := fun w => (inl e, w).

Definition lift {A} (r : except A) : M A := fun w => (r, w).

(** [try: body / except classes as e: handler e]. *)
Definition try_except {A} (body : M A) (classes : list exc_type) (handler : exn -> M A) : M A :=
  fun w =>
    match body w with
    | (inl e, w') => if caught_by classes e then handler e w' else (inl e, w')
    | r => r
    end.

Declare Scope monad_scope.
Delimit Scope monad_scope with M.
Notation "x <- m ;; k" := (bind m (fun x => k))
  (at level 61, m at next level, right associativity) : monad_scope.
Notation "m ;; k" := (bind m (fun _ => k))
  (at level 61, right associativity) : monad_scope.
Open Scope monad_scope.

(** Sending on the connection.  The client is taken to stay connected: a
    send that fails because the client has gone is outside the model, and
    the theorems on what a handler has sent and written speak of runs that
    return. *)
Definition emit (o : out) : M unit :=
  fun w => (inr tt, mkWorld (rfile w) (wfile w ++ [o]) (serial_conn w)).

Definition send_header (name value : string) : M unit := emit (Header name value).
Definition end_headers : M unit := emit EndHeaders.
Definition wfile_write (data : bytes) : M unit := emit (Body data).

(** [send_response(code)] also sends the library's Server and Date
    headers. *)
Definition send_response (self : WindSpeedHandler) (code : Z) : M unit :=
  emit (Status code) ;;
  send_header "Server" (version_string self) ;;
  send_header "Date" (date_time_string self).

(** [rfile.read(n)] on the buffered request stream, [rfile] being the bytes
    that arrive before the client closes its side: [n] bytes (fewer at the
    end of the stream), the whole stream for -1, ValueError below -1.
    The length is taken to be one the reader can work with: not below the
    least index -2^63, and not a count of bytes too large to allocate;
    otherwise the read raises OverflowError or MemoryError before anything
    is read, and the theorems that depend on a particular length state
    their range. *)
Definition rfile_read (n : Z) : M bytes :=
  fun w =>
    if n <? -1 then (inl ValueError, w)
    else if n =? -1 then (inr (rfile w), mkWorld [] (wfile w) (serial_conn w))
    else (inr (firstn (Z.to_nat n) (rfile w)),
          mkWorld (skipn (Z.to_nat n) (rfile w)) (wfile w) (serial_conn w)).

Definition assert_ (c : bool) : M unit := if c then ret tt else raise AssertionError.

Definition get_serial_conn : M (option Serial) := fun w => (inr (serial_conn w), w).

(** [serial_conn.write(data)]. *)
Definition Serial_write (data : bytes) : M unit :=
  fun w =>
    match serial_conn w with
    | None => (inl AttributeError, w)
    | Some s =>
        match fault s with
        | Some msg => (inl (SerialException msg), w)
        | None => (inr tt, mkWorld (rfile w) (wfile w) (Some (mkSerial (tx s ++ [data]) None)))
        end
    end.

Definition is_some {A} (o : option A) : bool :=
  match o with Some _ => true | None => false end.

Definition nl : string := String (chr 10) "".

(** ** serial_bridge.py *)

Section serial_bridge.

(** [json.loads] on the bytes of a body. *)
Variable json_loads : bytes -> except json.

(** The library's HTML error page for a status code and a method. *)
Variable error_page : Z -> string -> bytes.

Definition _set_cors_headers : M unit :=
  send_header "Access-Control-Allow-Origin" "*" ;;
  send_header "Access-Control-Allow-Methods" "POST, OPTIONS" ;;
  send_header "Access-Control-Allow-Headers" "Content-Type".

Definition do_OPTIONS (self : WindSpeedHandler) : M unit :=
  send_response self 204 ;;
  _set_cors_headers ;;
  end_headers.

Definition do_POST (self : WindSpeedHandler) : M unit :=
  if negb (String.eqb (path self) "/wind-speed") then
    send_response self 404 ;;
    _set_cors_headers ;;
    send_header "Content-Type" "application/json" ;;
    end_headers ;;
    wfile_write (b (q "{'error':'not_found'}"))
  else
    length <- lift (int_of_str (headers_get (headers self) "Content-Length" "0")) ;;
    parsed <-
      try_except
        (payload <- (if length =? 0 then ret (b "{}") else rfile_read length) ;;
         data <- lift (json_loads payload) ;;
         item <- lift (getitem data "windSpeedKmh") ;;
         wind_speed <- lift (float_of item) ;;
         ret (Some wind_speed))
        [T_JSONDecodeError; T_KeyError; T_TypeError; T_ValueError]
        (fun _ =>
           send_response self 400 ;;
           _set_cors_headers ;;
           send_header "Content-Type" "application/json" ;;
           end_headers ;;
           wfile_write (b (q "{'error':'invalid_payload'}")) ;;
           ret None) ;;
    match parsed with
    | None => ret tt
    | Some wind_speed =>
        let message := encode_utf8 (format_1f wind_speed ++ nl) in
        written <-
          try_except
            (conn <- get_serial_conn ;;
             assert_ (is_some conn) ;;
             Serial_write message ;;
             ret true)
            [T_AssertionError; T_SerialException]
            (fun error =>
               send_response self 500 ;;
               _set_cors_headers ;;
               send_header "Content-Type" "application/json" ;;
               end_headers ;;
               let payload :=
                 encode_utf8 (json_dumps [("error", "serial_error");
                                          ("details", str_of_exn error)]) in
               wfile_write payload ;;
               ret false) ;;
        if written : bool then
          send_response self 200 ;;
          _set_cors_headers ;;
          send_header "Content-Type" "application/json" ;;
          end_headers ;;
          wfile_write (b (q "{'status':'ok'}"))
        else ret tt
    end.

(** [send_error(code)] of the library, for a status that has a body. *)
Definition send_error (self : WindSpeedHandler) (code : Z) : M unit :=
  let body := error_page code (command self) in
  send_response self code ;;
  send_header "Connection" "close" ;;
  send_header "Content-Type" "text/html;charset=utf-8" ;;
  send_header "Content-Length" (decimal (Z.of_nat (List.length body))) ;;
  end_headers ;;
  if negb (String.eqb (command self) "HEAD") && negb (Nat.eqb (List.length body) 0)
  then wfile_write body else ret tt.

(** The dispatch of [BaseHTTPRequestHandler.handle_one_request] on a
    parsed request: the method [do_<command>] when the class has one,
    501 otherwise.  [WindSpeedHandler] defines [do_POST] and
    [do_OPTIONS]. *)
Definition handle_one_request (self : WindSpeedHandler) : M unit :=
  if String.eqb (command self) "POST" then do_POST self
  else if String.eqb (command self) "OPTIONS" then do_OPTIONS self
  else send_error self 501.

End serial_bridge.

(** ** A reference decoder for ASCII JSON text

    [json.loads] itself belongs to the standard library; the handler above
    takes it as a parameter.  To run the handler on concrete requests, this
    section writes the decoder out for the texts the examples use: bodies
    made of the ASCII characters 1 to 127, string escapes that stay below
    code point 256, and at most [max_depth] levels of nesting.  On any other
    input [loads_text] answers [None]. *)

Inductive scan (A : Type) : Type :=
| Got (a : A) (rest : list ascii)
| Fails (e : exn)
| Outside.
Arguments Got {A} a rest.
Arguments Fails {A} e.
Arguments Outside {A}.

Definition is_ws (c : ascii) : bool :=
  (code c =? 32) || (code c =? 9) || (code c =? 10) || (code c =? 13).

Fixpoint skip_ws (l : list ascii) : list ascii :=
  match l with
  | c :: r => if is_ws c then skip_ws r else l
  | [] => []
  end.

Definition hex_val (c : ascii) : option Z :=
  let n := code c in
  if (48 <=? n) && (n <=? 57) then Some (n - 48)
  else if (97 <=? n) && (n <=? 102) then Some (n - 87)
  else if (65 <=? n) && (n <=? 70) then Some (n - 55)
  else None.

Definition hex4 (a b c d : ascii) : option Z :=
  match hex_val a, hex_val b, hex_val c, hex_val d with
  | Some x, Some y, Some z, Some t => Some (((x * 16 + y) * 16 + z) * 16 + t)
  | _, _, _, _ => None
  end.

(** The character a one-letter escape stands for. *)
Definition unescape (c : ascii) : option ascii :=
  let n := code c in
  if n =? 34 then Some dquote
  else if n =? 92 then Some "\"%char
  else if n =? 47 then Some "/"%char
  else if n =? 98 then Some (chr 8)
  else if n =? 102 then Some (chr 12)
  else if n =? 110 then Some (chr 10)
  else if n =? 114 then Some (chr 13)
  else if n =? 116 then Some (chr 9)
  else None.

Definition scan_cons (c : ascii) (r : scan string) : scan string :=
  match r with
  | Got s rest => Got (String c s) rest
  | other => other
  end.

(** The body of a string, after its opening quote (strict mode: a raw
    control character is an error). *)
Fixpoint scanstring (l : list ascii) : scan string :=
  match l with
  | [] => Fails JSONDecodeError
  | c :: r =>
      if code c =? 34 then Got EmptyString r
      else if code c =? 92 then
        match r with
        | [] => Fails JSONDecodeError
        | e :: r1 =>
            if Ascii.eqb e "u" then
              match r1 with
              | h1 :: h2 :: h3 :: h4 :: r2 =>
                  match hex4 h1 h2 h3 h4 with
                  | Some v => if v <? 256 then scan_cons (chr v) (scanstring r2) else Outside
                  | None => Fails JSONDecodeError
                  end
              | _ => Fails JSONDecodeError
              end
            else
              match unescape e with
              | Some x => scan_cons x (scanstring r1)
              | None => Fails JSONDecodeError
              end
        end
      else if code c <=? 31 then Fails JSONDecodeError
      else scan_cons c (scanstring r)
  end.

(** [l] starts with the text [s]: what follows it. *)
Fixpoint after_prefix (s : list ascii) (l : list ascii) : option (list ascii) :=
  match s, l with
  | [], _ => Some l
  | a :: s', c :: l' => if Ascii.eqb a c then after_prefix s' l' else None
  | _ :: _, [] => None
  end.

(** A number: an optional minus, then 0 or a digit string that does not
    start with 0, then an optional fraction (a point and digits) and an
    optional exponent (e or E, a sign, digits).  With a fraction or an
    exponent it is a float, otherwise an int. *)
Definition scan_number (l : list ascii) : scan json :=
  let '(neg, r0) := match l with "-"%char :: r => (true, r) | _ => (false, l) end in
  let int_part :=
    match r0 with
    | "0"%char :: r1 => Some (["0"%char], r1)
    | c :: _ => if is_digit c then Some (span_digits r0) else None
    | [] => None
    end in
  match int_part with
  | None => Fails JSONDecodeError
  | Some (ip, r1) =>
      let '(frac, r2) :=
        match r1 with
        | "."%char :: r =>
            match span_digits r with
            | ([], _) => ([], r1)
            | (fp, rest) => ("."%char :: fp, rest)
            end
        | _ => ([], r1)
        end in
      let '(expo, r3) :=
        match r2 with
        | c :: r =>
            if Ascii.eqb c "e" || Ascii.eqb c "E" then
              let '(sg, ra) :=
                match r with
                | "-"%char :: x => (["-"%char], x)
                | "+"%char :: x => (["+"%char], x)
                | _ => ([], r)
                end in
              match span_digits ra with
              | ([], _) => ([], r2)
              | (ds, rest) => ((c :: sg ++ ds)%list, rest)
              end
            else ([], r2)
        | [] => ([], r2)
        end in
      let text := string_of_list_ascii
                    ((if neg : bool then ["-"%char] else []) ++ ip ++ frac ++ expo)%list in
      match frac, expo with
      | [], [] =>
          match int_of_str text with
          | inr n => Got (JInt n) r3
          | inl e => Fails e
          end
      | _, _ =>
          match float_of_str text with
          | inr x => Got (JFloat x) r3
          | inl e => Fails e
          end
      end
  end.

Definition max_depth : nat := 200.

(** One value at the head of [l].  [depth] bounds the nesting and [fuel]
    the number of members and items. *)
Fixpoint scan_once (depth fuel : nat) (l : list ascii) {struct fuel} : scan json :=
  match fuel with
  | O => Outside
  | S fuel' =>
      let members :=
        fix members (n : nat) (acc : list (string * json)) (l : list ascii) {struct n}
          : scan json :=
          match n, l with
          | O, _ => Outside
          | S n', c :: r =>
              if code c =? 34 then
                match scanstring r with
                | Got key r1 =>
                    match skip_ws r1 with
                    | ":"%char :: r2 =>
                        match scan_once (Nat.pred depth) fuel' (skip_ws r2) with
                        | Got v r3 =>
                            match skip_ws r3 with
                            | "}"%char :: r4 => Got (JObject (dict_set acc key v)) r4
                            | ","%char :: r4 => members n' (dict_set acc key v) (skip_ws r4)
                            | _ => Fails JSONDecodeError
                            end
                        | other => other
                        end
                    | _ => Fails JSONDecodeError
                    end
                | Fails e => Fails e
                | Outside => Outside
                end
              else Fails JSONDecodeError
          | S _, [] => Fails JSONDecodeError
          end in
      let items :=
        fix items (n : nat) (acc : list json) (l : list ascii) {struct n} : scan json :=
          match n with
          | O => Outside
          | S n' =>
              match scan_once (Nat.pred depth) fuel' l with
              | Got v r1 =>
                  match skip_ws r1 with
                  | "]"%char :: r2 => Got (JArray (acc ++ [v])%list) r2
                  | ","%char :: r2 => items n' (acc ++ [v])%list (skip_ws r2)
                  | _ => Fails JSONDecodeError
                  end
              | other => other
              end
          end in
      match l with
      | [] => Fails JSONDecodeError
      | c :: r =>
          if code c =? 34 then
            match scanstring r with
            | Got s rest => Got (JString s) rest
            | Fails e => Fails e
            | Outside => Outside
            end
          else if Ascii.eqb c "{" then
            match depth with
            | O => Outside
            | S _ =>
                match skip_ws r with
                | "}"%char :: r1 => Got (JObject []) r1
                | r1 => members fuel' [] r1
                end
            end
          else if Ascii.eqb c "[" then
            match depth with
            | O => Outside
            | S _ =>
                match skip_ws r with
                | "]"%char :: r1 => Got (JArray []) r1
                | r1 => items fuel' [] r1
                end
            end
          else
            match after_prefix (chars "null") l, after_prefix (chars "true") l,
                  after_prefix (chars "false") l, after_prefix (chars "NaN") l,
                  after_prefix (chars "Infinity") l, after_prefix (chars "-Infinity") l with
            | Some rest, _, _, _, _, _ => Got JNull rest
            | _, Some rest, _, _, _, _ => Got (JBool true) rest
            | _, _, Some rest, _, _, _ => Got (JBool false) rest
            | _, _, _, Some rest, _, _ => Got (JFloat S754_nan) rest
            | _, _, _, _, Some rest, _ => Got (JFloat (S754_infinity false)) rest
            | _, _, _, _, _, Some rest => Got (JFloat (S754_infinity true)) rest
            | _, _, _, _, _, _ => scan_number l
            end
      end
  end.

(** [json.loads] on a text: one value between optional white space. *)
Definition loads_text (s : string) : option (except json) :=
  let l := chars s in
  if forallb (fun c => (1 <=? code c) && (code c <=? 127)) l then
    match scan_once max_depth (S (List.length l)) (skip_ws l) with
    | Got v rest =>
        match skip_ws rest with
        | [] => Some (inr v)
        | _ => Some (inl JSONDecodeError)
        end
    | Fails e => Some (inl e)
    | Outside => None
    end
  else None.

(** The total version handed to the handler in the examples; outside the
    fragment it answers RecursionError. *)
Definition json_loads_ascii (payload : bytes) : except json :=
  match loads_text (string_of_list_byte payload) with
  | Some r => r
  | None => inl RecursionError
  end.

(** ** WindSpeedHandler threads at the serial port

    [create_server] builds a [ThreadingHTTPServer]: every request runs
    [do_POST] on a thread of its own, and each thread that gets as far as
    line 67 calls [serial_conn.write(message)] on the one shared port.
    Nothing in the handler takes a lock around that call.  The port is
    opened non-blocking and [write] hands its data to the device with
    [os.write] in a loop, each turn passing on a non-empty prefix of what is
    left; turns of different threads may alternate. *)

(** [create_server]: the class attribute every handler reads. *)
Definition create_server (ser : Serial) (w : world) : world :=
  mkWorld (rfile w) (wfile w) (Some ser).

(** The shared port seen from the threads: [pending] holds, per thread, the
    data its [write] call has still to pass on (empty once the call has
    returned), [wire] the bytes the device has received. *)
Record port : Type := mkPort {
  pending : list bytes;
  wire : bytes
}.

Fixpoint list_set {A} (l : list A) (i : nat) (x : A) : list A :=
  match l, i with
  | [], _ => []
  | _ :: r, O => x :: r
  | a :: r, S j => a :: list_set r j x
  end.

(** One [os.write] of thread [i] passing on [n] bytes. *)
Definition os_write (i n : nat) (p : port) : option port :=
  match nth_error (pending p) i with
  | Some d =>
      if (Nat.leb 1 n && Nat.leb n (List.length d))%bool then
        Some (mkPort (list_set (pending p) i (skipn n d)) (wire p ++ firstn n d)%list)
      else None
  | None => None
  end.

(** The same step when the call passes on all of its data at once. *)
Definition os_write_whole (i : nat) (p : port) : option port :=
  match nth_error (pending p) i with
  | Some d => os_write i (List.length d) p
  | None => None
  end.

(** A schedule names, turn by turn, the thread that runs and the number of
    bytes its [os.write] passes on. *)
Fixpoint run_schedule (sch : list (nat * nat)) (p : port) : option port :=
  match sch with
  | [] => Some p
  | (i, n) :: r =>
      match os_write i n p with
      | Some p' => run_schedule r p'
      | None => None
      end
  end.

(** A schedule of thread turns in which every call passes on its data in
    one piece. *)
Fixpoint run_whole (sch : list nat) (p : port) : option port :=
  match sch with
  | [] => Some p
  | i :: r =>
      match os_write_whole i p with
      | Some p' => run_whole r p'
      | None => None
      end
  end.

Definition all_returned (p : port) : bool :=
  forallb (fun d => Nat.eqb (List.length d) 0) (pending p).

(** A thread is inside [write] while it has passed on some, not all, of
    its data. *)
Definition inside_write (msgs : list bytes) (p : port) (i : nat) : bool :=
  match nth_error msgs i, nth_error (pending p) i with
  | Some m, Some d =>
      negb (Nat.eqb (List.length d) 0) && Nat.ltb (List.length d) (List.length m)
  | _, _ => false
  end.

(** The wire carries the lines whole, one after the other in some order. *)
Definition lines_whole (msgs : list bytes) (w : bytes) : Prop :=
  exists order, Permutation order msgs /\ w = List.concat order.

Section threads.

Variable json_loads : bytes -> except json.

(** The data [do_POST] hands to [serial_conn.write] for a request, if it
    gets that far: read off a run against a working port. *)
Definition message_of (self : WindSpeedHandler) (body : bytes) : option bytes :=
  match do_POST json_loads self (create_server (mkSerial [] None) (mkWorld body [] None)) with
  | (_, w') =>
      match serial_conn w' with
      | Some (mkSerial [m] _) => Some m
      | _ => None
      end
  end.

End threads.

(** ** The process: [main] and the module's last lines

    [main] opens the port, builds the server, installs [shutdown_handler]
    for SIGINT and SIGTERM, and runs [serve_forever] on the main thread.
    A Python signal handler runs on the main thread, on top of whatever
    that thread is doing.  [server.shutdown()] sets the request flag and
    then waits for the event [is_shut_down], which [serve_forever] sets
    when its loop has ended. *)

Inductive signum : Type := SIGINT | SIGTERM.

Inductive status : Type :=
| AtOpen                 (* line 98: before [serial.Serial(...)] *)
| AtSetup                (* lines 103 to 112: port open, handlers not yet installed *)
| Serving                (* line 115: inside [serve_forever] *)
| Exited (code : Z)
| Killed (s : signum).   (* ended by a signal with its default action *)

Inductive event : Type :=
| Open_ok                (* [serial.Serial] returns *)
| Open_fails             (* [serial.Serial] raises SerialException *)
| Setup_done             (* [create_server] and both [signal.signal] calls return *)
| Signal (s : signum)
| Poll.                  (* the main thread runs on: one turn of the loop *)

Record process : Type := mkProcess {
  at_ : status;
  serial_is_open : bool;
  listening : bool;           (* the HTTP listener exists *)
  shutdown_request : bool;    (* the server's request flag *)
  is_shut_down : bool;        (* the server's event *)
  waiting : nat               (* [shutdown()] calls waiting on the main thread *)
}.

Definition start : process := mkProcess AtOpen false false false false 0.

(** [server.shutdown()]: set the request flag, then wait for the event.  On
    the main thread the wait sits on top of the loop that would set it. *)
Definition shutdown (p : process) : process :=
  if is_shut_down p
  then mkProcess (at_ p) (serial_is_open p) (listening p) true true (waiting p)
  else mkProcess (at_ p) (serial_is_open p) (listening p) true false (S (waiting p)).

(** [shutdown_handler(signum, frame)], lines 107 to 109. *)
Definition shutdown_handler (s : signum) (p : process) : process := shutdown p.

(** One turn of the loop of [serve_forever], and what follows the loop:
    the event is set, [finally] closes the port (line 117), [main]
    returns and the process exits with status 0. *)
Definition serve_forever_turn (p : process) : process :=
  if shutdown_request p then mkProcess (Exited 0) false false false true 0 else p.

(** [main] and the last lines of the module, one event at a time. *)
Definition step (p : process) (ev : event) : process :=
  match at_ p, ev with
  | AtOpen, Open_ok => mkProcess AtSetup true false false false 0
  | AtOpen, Open_fails =>
      (* line 101: [raise SystemExit(1)] *)
      mkProcess (Exited 1) false false false false 0
  | AtOpen, Signal SIGINT | AtSetup, Signal SIGINT =>
      (* KeyboardInterrupt leaves [main]; line 125: [sys.exit(0)] *)
      mkProcess (Exited 0) (serial_is_open p) (listening p) false false 0
  | AtOpen, Signal SIGTERM | AtSetup, Signal SIGTERM =>
      mkProcess (Killed SIGTERM) (serial_is_open p) (listening p) false false 0
  | AtSetup, Setup_done =>
      (* [serve_forever] starts by clearing the event *)
      mkProcess Serving true true false false 0
  | Serving, Signal s => shutdown_handler s p
  | Serving, Poll =>
      match waiting p with
      | O => serve_forever_turn p
      | S k =>
          (* the main thread is inside [shutdown()], which returns once the
             event is set *)
          if is_shut_down p
          then mkProcess Serving (serial_is_open p) (listening p) (shutdown_request p) true k
          else p
      end
  | _, _ => p
  end.

Definition run (evs : list event) (p : process) : process := fold_left step evs p.

(** The process after the events [evs]. *)
Definition main (evs : list event) : process := run evs start.

(** ** Words of the specification *)

(** Fixed-point text with exactly one digit after the decimal point: an
    optional minus sign, one or more digits, a point, one digit. *)
Definition drop_minus (l : list ascii) : list ascii :=
  match l with
  | "-"%char :: r => r
  | _ => l
  end.

Definition fixed_point_1 (s : string) : bool :=
  match span_digits (drop_minus (chars s)) with
  | (_ :: _, ["."%char; d]) => is_digit d
  | _ => false
  end.

(** The status code of a response, and what it carries. *)
Fixpoint status_of (resp : list out) : option Z :=
  match resp with
  | Status c :: _ => Some c
  | _ :: r => status_of r
  | [] => None
  end.

Definition carries (resp : list out) (name value : string) : Prop :=
  In (Header name value) resp.

Definition has_body (resp : list out) : bool :=
  existsb (fun o => match o with Body _ => true | _ => false end) resp.

Fixpoint body_of (resp : list out) : bytes :=
  match resp with
  | Body d :: r => (d ++ body_of r)%list
  | _ :: r => body_of r
  | [] => []
  end.

(** The head of every response of the handler: status line, the library's
    two headers, the three CORS headers. *)
Definition response_head (self : WindSpeedHandler) (code : Z) : list out :=
  [Status code;
   Header "Server" (version_string self);
   Header "Date" (date_time_string self);
   Header "Access-Control-Allow-Origin" "*";
   Header "Access-Control-Allow-Methods" "POST, OPTIONS";
   Header "Access-Control-Allow-Headers" "Content-Type"].

(** A JSON response of the handler. *)
Definition json_response (self : WindSpeedHandler) (code : Z) (body : bytes) : list out :=
  (response_head self code
   ++ [Header "Content-Type" "application/json"; EndHeaders; Body body])%list.

(** What the handler makes of the Content-Length header (line 50). *)
Definition content_length (self : WindSpeedHandler) : except Z :=
  int_of_str (headers_get (headers self) "Content-Length" "0").

(** The body the handler goes on to decode (line 52). *)
Definition read_body (length : Z) : M bytes :=
  if length =? 0 then ret (b "{}") else rfile_read length.

(** A JSON number. *)
Definition is_number (v : json) : bool :=
  match v with
  | JInt _ | JFloat _ => true
  | _ => false
  end.

(** The exception classes of the first [except] clause of [do_POST]. *)
Definition payload_errors : list exc_type :=
  [T_JSONDecodeError; T_KeyError; T_TypeError; T_ValueError].

(** Lines 53 and 54 as one pure step: decode, index, coerce. *)
Definition wind_speed_of (json_loads : bytes -> except json) (payload : bytes) : except float :=
  match json_loads payload with
  | inl e => inl e
  | inr data =>
      match getitem data "windSpeedKmh" with
      | inl e => inl e
      | inr item => float_of item
      end
  end.

(** The world after a handler has sent [resp]. *)
Definition respond (w : world) (resp : list out) : world :=
  mkWorld (rfile w) (wfile w ++ resp) (serial_conn w).

(** The body of the 500 response for a failure whose text is [details]. *)
Definition serial_error_body (details : string) : bytes :=
  encode_utf8 (json_dumps [("error", "serial_error"); ("details", details)]).

(** The line sent to the port for a reading. *)
Definition message_for (x : float) : bytes := encode_utf8 (format_1f x ++ nl).

(** ** Example requests and further vocabulary *)

(** The outcome of the third stage, as a function of the port. *)
Definition forwarded (self : WindSpeedHandler) (x : float) (w : world) : except unit * world :=
  match serial_conn w with
  | None => (inr tt, respond w (json_response self 500 (serial_error_body "")))
  | Some s =>
      match fault s with
      | Some msg => (inr tt, respond w (json_response self 500 (serial_error_body msg)))
      | None =>
          (inr tt,
           respond (mkWorld (rfile w) (wfile w) (Some (mkSerial (tx s ++ [message_for x]) None)))
                   (json_response self 200 (b (q "{'status':'ok'}"))))
      end
  end.

(** A POST as a client sends it: the headers carry the length of the
    body. *)
Definition post (target body : string) : WindSpeedHandler :=
  mkHandler "POST" target
    [("Host", "bridge.local:5000"); ("Content-Type", "application/json");
     ("Content-Length", decimal (Z.of_nat (String.length body)))]
    "BaseHTTP/0.6 Python/3.12.3" "Tue, 03 Nov 2026 09:00:00 GMT".

(** A fresh connection on which [body] arrives, and the port the handlers
    share. *)
Definition incoming (body : string) (conn : option Serial) : world :=
  mkWorld (b body) [] conn.

Definition idle_port : Serial := mkSerial [] None.

(** A line as the claim describes it: fixed-point text with one digit after
    the point, then one newline. *)
Definition one_decimal_line (line : bytes) : bool :=
  match rev (chars (string_of_list_byte line)) with
  | c :: r => (code c =? 10) && fixed_point_1 (string_of_list_ascii (rev r))
  | [] => false
  end.

(** A field value that is not numeric: null, an array, an object, or a
    string that [float()] rejects. *)
Definition non_numeric (v : json) : bool :=
  match v with
  | JNull | JArray _ | JObject _ => true
  | JString s => match float_of_str s with inl _ => true | inr _ => false end
  | JBool _ | JInt _ | JFloat _ => false
  end.

(** The bodies of the claim, by what the decoder makes of them: malformed
    JSON (the decoder raises its decode error, or the bytes are not text),
    JSON that is not an object, an object without the field, an object
    whose field is not numeric. *)
Definition invalid_payload (decoded : except json) : bool :=
  match decoded with
  | inl JSONDecodeError | inl UnicodeDecodeError => true
  | inl _ => false
  | inr (JObject d) =>
      match dict_get d "windSpeedKmh" with
      | None => true
      | Some v => non_numeric v
      end
  | inr _ => true
  end.

(** What [send_error] puts on the connection. *)
Definition error_response (error_page : Z -> string -> bytes) (self : WindSpeedHandler) (code : Z)
  : list out :=
  let body := error_page code (command self) in
  ([Status code;
    Header "Server" (version_string self);
    Header "Date" (date_time_string self);
    Header "Connection" "close";
    Header "Content-Type" "text/html;charset=utf-8";
    Header "Content-Length" (decimal (Z.of_nat (List.length body)));
    EndHeaders]
   ++ (if negb (String.eqb (command self) "HEAD") && negb (Nat.eqb (List.length body) 0)
       then [Body body] else []))%list.

(** A short page in place of the library's HTML template, for the
    examples; no property depends on its text. *)
Definition plain_error_page (code : Z) (method : string) : bytes :=
  b ("Error response: " ++ decimal code ++ " for " ++ method).

Definition get (target : string) : WindSpeedHandler :=
  mkHandler "GET" target [("Host", "bridge.local:5000")]
    "BaseHTTP/0.6 Python/3.12.3" "Tue, 03 Nov 2026 09:00:00 GMT".

(** A POST whose Content-Length header is not a number. *)
Definition post_with_length (target length : string) : WindSpeedHandler :=
  mkHandler "POST" target
    [("Host", "bridge.local:5000"); ("Content-Type", "application/json");
     ("Content-Length", length)]
    "BaseHTTP/0.6 Python/3.12.3" "Tue, 03 Nov 2026 09:00:00 GMT".

Fixpoint zeros (n : nat) : string :=
  match n with
  | O => ""
  | S k => String "0" (zeros k)
  end.

(** The response to OPTIONS. *)
Definition options_response (self : WindSpeedHandler) : list out :=
  (response_head self 204 ++ [EndHeaders])%list.

Definition float_one : float := S754_finite false 4503599627370496 (-52).
Definition float_zero : float := S754_zero false.

Definition nonempty (d : bytes) : bool := negb (Nat.eqb (List.length d) 0).

(** The data of the calls that have not returned. *)
Definition remaining (p : port) : list bytes := filter nonempty (pending p).

(** The main thread held inside [shutdown()]: the loop of [serve_forever]
    is below it on the stack, so the event it waits for is not set. *)
Definition held (p : process) : Prop :=
  at_ p = Serving /\ is_shut_down p = false /\ serial_is_open p = true
  /\ listening p = true /\ (1 <= waiting p)%nat.

(** ** What a run leaves behind *)

(** A complete response: a status line, then headers, then the end of the
    headers, then at most one body. *)
Fixpoint headers_then_body (rest : list out) : bool :=
  match rest with
  | Header _ _ :: r => headers_then_body r
  | [EndHeaders] => true
  | [EndHeaders; Body _] => true
  | _ => false
  end.

Definition complete_response (resp : list out) : bool :=
  match resp with
  | Status _ :: rest => headers_then_body rest
  | _ => false
  end.

(** A character of a line: ASCII, and not the line terminator. *)
Definition plain_char (c : ascii) : bool := negb (code c =? 10) && (code c <? 128).

(** One line of ASCII text: plain characters, then one newline. *)
Definition single_line (m : bytes) : bool :=
  match rev (chars (string_of_list_byte m)) with
  | c :: r => (code c =? 10) && forallb plain_char r
  | [] => false
  end.

(** Everything the port has received is made of single lines. *)
Definition port_lines (conn : option Serial) : bool :=
  match conn with
  | Some s => forallb single_line (tx s)
  | None => true
  end.

(** The same handler object with other request headers. *)
Definition with_headers (self : WindSpeedHandler) (hs : list (string * string))
  : WindSpeedHandler :=
  mkHandler (command self) (path self) hs (version_string self) (date_time_string self).

(** The headers with their names in lower case. *)
Definition lower_names (hs : list (string * string)) : list (string * string) :=
  map (fun kv => (str_lower (fst kv), snd kv)) hs.

(** A character the reference decoder reads: ASCII and not NUL. *)
Definition json_char (c : ascii) : bool := (1 <=? code c) && (code c <=? 127).

(** The members of an object as [scan_once] reads them, with the scanner of
    the member values as a parameter: the loop inside [scan_once]. *)
Definition members_at (value : list ascii -> scan json)
  : nat -> list (string * json) -> list ascii -> scan json :=
  fix members_at (n : nat) (acc : list (string * json)) (l : list ascii) {struct n}
    : scan json :=
  match n, l with
  | O, _ => Outside
  | S n', c :: r =>
      if code c =? 34 then
        match scanstring r with
        | Got key r1 =>
            match skip_ws r1 with
            | ":"%char :: r2 =>
                match value (skip_ws r2) with
                | Got v r3 =>
                    match skip_ws r3 with
                    | "}"%char :: r4 => Got (JObject (dict_set acc key v)) r4
                    | ","%char :: r4 => members_at n' (dict_set acc key v) (skip_ws r4)
                    | _ => Fails JSONDecodeError
                    end
                | other => other
                end
            | _ => Fails JSONDecodeError
            end
        | Fails e => Fails e
        | Outside => Outside
        end
      else Fails JSONDecodeError
  | S _, [] => Fails JSONDecodeError
  end.


(** ** Requests one after another

    [create_server] stores the port in the class attribute (line 90), so
    the handler objects of all requests write to the same port.  A request
    arrives on a connection of its own; at that time the port accepts a
    write or fails with some text. *)
Record request : Type := mkRequest {
  handler : WindSpeedHandler;
  arriving : bytes;
  port_fault : option string
}.

(** The shared port as a request finds it. *)
Definition at_request (conn : option Serial) (f : option string) : option Serial :=
  match conn with
  | Some s => Some (mkSerial (tx s) f)
  | None => None
  end.

(** What the port has received. *)
Definition sent (conn : option Serial) : list bytes :=
  match conn with
  | Some s => tx s
  | None => []
  end.

(** The requests handled in turn: for each the outcome of its handler and
    what it sent, and the port afterwards. *)
Fixpoint serve (json_loads : bytes -> except json)
         (error_page : Z -> string -> bytes)
         (reqs : list request) (conn : option Serial)
  : list (except unit * list out) * option Serial :=
  match reqs with
  | [] => ([], conn)
  | rq :: rest =>
      let run := handle_one_request json_loads error_page (handler rq)
                   (mkWorld (arriving rq) [] (at_request conn (port_fault rq))) in
      let (outs, conn') := serve json_loads error_page rest (serial_conn (snd run)) in
      ((fst run, wfile (snd run)) :: outs, conn')
  end.

(** Every handler returned: no request was left without its response. *)
Definition all_answered (outs : list (except unit * list out)) : bool :=
  forallb (fun o => match fst o with inr _ => true | inl _ => false end) outs.

(** The responses with status 200. *)
Definition count_200 (outs : list (except unit * list out)) : nat :=
  List.length (filter (fun o => match status_of (snd o) with
                                | Some c => c =? 200
                                | None => false
                                end) outs).

(** ** Requests side by side *)

(** Everything the handler of a request writes to a working port that has
    received nothing yet. *)
Definition written_by (json_loads : bytes -> except json)
           (self : WindSpeedHandler) (body : bytes) : list bytes :=
  match serial_conn (snd (do_POST json_loads self
                            (create_server idle_port (mkWorld body [] None)))) with
  | Some port => tx port
  | None => []
  end.

(** What the handlers of the requests hand to [serial_conn.write], each on
    its thread. *)
Definition lines_of (json_loads : bytes -> except json)
           (reqs : list (WindSpeedHandler * bytes)) : list bytes :=
  flat_map (fun rq => written_by json_loads (fst rq) (snd rq)) reqs.

(** ** A body nested beyond what the decoder descends *)

(** [n] opening brackets: arrays inside arrays, cut off before any of them
    is closed. *)
Fixpoint open_brackets (n : nat) : string :=
  match n with
  | O => ""
  | S k => String "[" (open_brackets k)
  end.

(** * Properties *)

(** ** The monad *)

Lemma bind_run {A B} (m : M A) (k : A -> M B) w :
  bind m k w = match m w with
               | (inr a, w') => k a w'
               | (inl e, w') => (inl e, w')
               end.
Proof. reflexivity. Qed.

Lemma lift_run {A} (r : except A) w : lift r w = (r, w).
Proof. reflexivity. Qed.

Lemma try_except_run {A} (body : M A) classes handler w :
  try_except body classes handler w
  = match body w with
    | (inl e, w') => if caught_by classes e then handler e w' else (inl e, w')
    | r => r
    end.
Proof. reflexivity. Qed.

Lemma emit_run o w : emit o w = (inr tt, respond w [o]).
Proof. reflexivity. Qed.

Lemma respond_respond w r1 r2 : respond (respond w r1) r2 = respond w (r1 ++ r2).
Proof. unfold respond; simpl. now rewrite <- app_assoc. Qed.

Lemma respond_nil w : respond w [] = w.
Proof. destruct w; unfold respond; simpl. now rewrite app_nil_r. Qed.

(** Sending a response head, then the JSON content type, the end of the
    headers and a body, amounts to one [json_response]. *)
Lemma send_json_run self code body w :
  (send_response self code ;;
   _set_cors_headers ;;
   send_header "Content-Type" "application/json" ;;
   end_headers ;;
   wfile_write body) w = (inr tt, respond w (json_response self code body)).
Proof.
  unfold send_response, _set_cors_headers, send_header, end_headers, wfile_write, bind.
  rewrite !emit_run, !respond_respond. reflexivity.
Qed.

Lemma send_json_then_run {A} self code body (a : A) w :
  (send_response self code ;;
   _set_cors_headers ;;
   send_header "Content-Type" "application/json" ;;
   end_headers ;;
   wfile_write body ;;
   ret a) w = (inr a, respond w (json_response self code body)).
Proof.
  unfold send_response, _set_cors_headers, send_header, end_headers, wfile_write, bind, ret.
  rewrite !emit_run, !respond_respond. reflexivity.
Qed.

(** ** [do_POST], step by step *)

Lemma do_POST_other_path json_loads self w :
  path self <> "/wind-speed" ->
  do_POST json_loads self w
  = (inr tt, respond w (json_response self 404 (b (q "{'error':'not_found'}")))).
Proof.
  intros Hp. unfold do_POST.
  destruct (String.eqb (path self) "/wind-speed") eqn:E.
  - apply String.eqb_eq in E. contradiction.
  - simpl negb. cbv iota. apply send_json_run.
Qed.

(** The third stage of [do_POST]: the serial write and the response that
    reports its outcome. *)
Lemma forward_run self x w :
  (let message := message_for x in
   written <-
     try_except
       (conn <- get_serial_conn ;;
        assert_ (is_some conn) ;;
        Serial_write message ;;
        ret true)
       [T_AssertionError; T_SerialException]
       (fun error =>
          send_response self 500 ;;
          _set_cors_headers ;;
          send_header "Content-Type" "application/json" ;;
          end_headers ;;
          let payload :=
            encode_utf8 (json_dumps [("error", "serial_error");
                                     ("details", str_of_exn error)]) in
          wfile_write payload ;;
          ret false) ;;
   if written : bool then
     send_response self 200 ;;
     _set_cors_headers ;;
     send_header "Content-Type" "application/json" ;;
     end_headers ;;
     wfile_write (b (q "{'status':'ok'}"))
   else ret tt) w
  = match serial_conn w with
    | None => (inr tt, respond w (json_response self 500 (serial_error_body "")))
    | Some s =>
        match fault s with
        | Some msg => (inr tt, respond w (json_response self 500 (serial_error_body msg)))
        | None =>
            (inr tt,
             respond (mkWorld (rfile w) (wfile w) (Some (mkSerial (tx s ++ [message_for x]) None)))
                     (json_response self 200 (b (q "{'status':'ok'}"))))
        end
    end.
Proof.
  cbv zeta. unfold bind at 1. unfold try_except.
  unfold bind at 1. unfold get_serial_conn.
  destruct (serial_conn w) as [s|] eqn:Es.
  - simpl is_some. unfold assert_. unfold bind at 1. unfold ret at 1.
    unfold bind at 1. unfold Serial_write. rewrite Es.
    destruct (fault s) as [msg|] eqn:Ef.
    + simpl caught_by. cbv iota.
      rewrite send_json_then_run. simpl str_of_exn. unfold ret. reflexivity.
    + unfold ret at 1. cbv iota. apply send_json_run.
  - simpl is_some. unfold assert_. unfold bind at 1. unfold raise.
    simpl caught_by. cbv iota.
    rewrite send_json_then_run. simpl str_of_exn. unfold ret. reflexivity.
Qed.

Lemma bad_request_run self w :
  (send_response self 400 ;;
   _set_cors_headers ;;
   send_header "Content-Type" "application/json" ;;
   end_headers ;;
   wfile_write (b (q "{'error':'invalid_payload'}")) ;;
   ret (@None float)) w
  = (inr None, respond w (json_response self 400 (b (q "{'error':'invalid_payload'}")))).
Proof. apply send_json_then_run. Qed.

(** [do_POST] on the data path, stage by stage: the header, the body, the
    coercion, then the write. *)
Lemma do_POST_wind_speed json_loads self w :
  path self = "/wind-speed" ->
  do_POST json_loads self w
  = match content_length self with
    | inl e => (inl e, w)
    | inr n =>
        match read_body n w with
        | (inl e, w1) =>
            if caught_by payload_errors e
            then (inr tt, respond w1 (json_response self 400 (b (q "{'error':'invalid_payload'}"))))
            else (inl e, w1)
        | (inr payload, w1) =>
            match wind_speed_of json_loads payload with
            | inl e =>
                if caught_by payload_errors e
                then (inr tt, respond w1 (json_response self 400 (b (q "{'error':'invalid_payload'}"))))
                else (inl e, w1)
            | inr x => forwarded self x w1
            end
        end
    end.
Proof.
  intros Hp. unfold do_POST. rewrite Hp, String.eqb_refl. cbn [negb].
  unfold content_length. rewrite bind_run, lift_run.
  destruct (int_of_str (headers_get (headers self) "Content-Length" "0")) as [e|n]; [reflexivity|].
  rewrite bind_run, try_except_run, bind_run.
  fold (read_body n). fold payload_errors.
  destruct (read_body n w) as [[e|payload] w1] eqn:Er.
  - destruct (caught_by payload_errors e); [rewrite bad_request_run|]; reflexivity.
  - unfold wind_speed_of. rewrite bind_run, lift_run.
    destruct (json_loads payload) as [e|data].
    { destruct (caught_by payload_errors e); [rewrite bad_request_run|]; reflexivity. }
    rewrite bind_run, lift_run.
    destruct (getitem data "windSpeedKmh") as [e|item].
    { destruct (caught_by payload_errors e); [rewrite bad_request_run|]; reflexivity. }
    rewrite bind_run, lift_run.
    destruct (float_of item) as [e|x].
    { destruct (caught_by payload_errors e); [rewrite bad_request_run|]; reflexivity. }
    unfold ret at 1. apply (forward_run self x w1).
Qed.

(** ** The text [.1f] produces *)

Lemma chars_app s t : chars (s ++ t) = (chars s ++ chars t)%list.
Proof. unfold chars. induction s; simpl; [reflexivity | now rewrite IHs]. Qed.

Lemma span_digits_app ds rest :
  forallb is_digit ds = true ->
  match rest with c :: _ => is_digit c = false | [] => True end ->
  span_digits (ds ++ rest) = (ds, rest).
Proof.
  intros Hd Hr. induction ds as [|c ds IH]; simpl.
  - destruct rest as [|c r]; [reflexivity|]. simpl. now rewrite Hr.
  - simpl in Hd. apply andb_true_iff in Hd as [Hc Hds].
    rewrite Hc, (IH Hds). reflexivity.
Qed.

Lemma uint_digits d : forallb is_digit (chars (NilEmpty.string_of_uint d)) = true.
Proof. induction d; simpl; try reflexivity; assumption. Qed.

Lemma decimal_digits n : forallb is_digit (chars (decimal n)) = true.
Proof.
  unfold decimal, NilZero.string_of_uint.
  destruct (N.to_uint (Z.to_N n)); try reflexivity; apply (uint_digits (_ _)).
Qed.

Lemma decimal_nonempty n : chars (decimal n) <> [].
Proof.
  unfold decimal, NilZero.string_of_uint.
  destruct (N.to_uint (Z.to_N n)); simpl; discriminate.
Qed.

Lemma decimal_one_digit r :
  0 <= r < 10 -> exists d, chars (decimal r) = [d] /\ is_digit d = true.
Proof.
  intros Hr.
  assert (Hc : r = 0 \/ r = 1 \/ r = 2 \/ r = 3 \/ r = 4 \/ r = 5 \/ r = 6
               \/ r = 7 \/ r = 8 \/ r = 9) by lia.
  repeat (destruct Hc as [Hc|Hc]; [subst r; eexists; split; reflexivity|]).
  subst r; eexists; split; reflexivity.
Qed.

(** A finite float prints as fixed-point text with one digit after the
    point. *)
Lemma format_1f_finite x : is_finite x = true -> fixed_point_1 (format_1f x) = true.
Proof.
  destruct x as [s|s| |s m e]; cbn [is_finite]; try discriminate; intros _.
  - destruct s; reflexivity.
  - unfold format_1f, fixed_point_1.
    assert (H10 : 0 <= tenths m e mod 10 < 10) by (apply Z.mod_pos_bound; lia).
    destruct (decimal_one_digit _ H10) as [d [Hd Hdig]].
    pose proof (decimal_digits (tenths m e / 10)) as Hall.
    pose proof (decimal_nonempty (tenths m e / 10)) as Hne.
    assert (Hshape : drop_minus (chars (sign_text s ++ decimal (tenths m e / 10) ++ "."
                                        ++ decimal (tenths m e mod 10)))
                     = (chars (decimal (tenths m e / 10)) ++ ["."%char; d])%list).
    { rewrite !chars_app, Hd.
      destruct s; cbn [sign_text].
      - reflexivity.
      - change (chars "") with (@nil ascii). rewrite app_nil_l.
        change (chars ".") with ["."%char].
        destruct (chars (decimal (tenths m e / 10))) as [|c r]; [congruence|].
        cbn [forallb] in Hall. apply andb_true_iff in Hall as [Hc _].
        cbn [app]. destruct c as [[] [] [] [] [] [] [] []]; try reflexivity; discriminate Hc. }
    rewrite Hshape, span_digits_app; [| exact Hall | reflexivity].
    destruct (chars (decimal (tenths m e / 10))); [congruence | exact Hdig].
Qed.

(** A float that is not finite prints as one of three words. *)
Lemma format_1f_not_finite x :
  is_finite x = false -> In (format_1f x) ["nan"; "inf"; "-inf"].
Proof.
  destruct x as [s|s| |s m e]; simpl; try discriminate; intros _.
  - destruct s; simpl; auto.
  - auto.
Qed.

(** *** Ints within 53 bits *)

Lemma Zpos_iter_xO p k : Zpos (Pos.iter xO p k) = Zpos p * 2 ^ Zpos k.
Proof.
  induction k as [|k IH] using Pos.peano_ind.
  - simpl. lia.
  - rewrite Pos.iter_succ, Pos2Z.inj_succ, Z.pow_succ_r by lia.
    rewrite Pos2Z.inj_xO, IH. lia.
Qed.

Lemma digits2_pos_iter_xO p k :
  digits2_pos (Pos.iter xO p k) = (digits2_pos p + k)%positive.
Proof.
  induction k as [|k IH] using Pos.peano_ind.
  - simpl. lia.
  - rewrite Pos.iter_succ. simpl. rewrite IH. lia.
Qed.

Lemma digits2_pos_lower p : 2 ^ (Zpos (digits2_pos p) - 1) <= Zpos p.
Proof.
  induction p as [p IH|p IH|]; simpl digits2_pos.
  - rewrite Pos2Z.inj_succ. replace (Z.succ (Zpos (digits2_pos p)) - 1)
      with (Z.succ (Zpos (digits2_pos p) - 1)) by lia.
    rewrite Z.pow_succ_r by lia. lia.
  - rewrite Pos2Z.inj_succ. replace (Z.succ (Zpos (digits2_pos p)) - 1)
      with (Z.succ (Zpos (digits2_pos p) - 1)) by lia.
    rewrite Z.pow_succ_r by lia. lia.
  - simpl. lia.
Qed.

Lemma digits2_pos_53 p : Zpos p < 2 ^ 53 -> Zpos (digits2_pos p) <= 53.
Proof.
  intros H. destruct (Z_le_gt_dec (Zpos (digits2_pos p)) 53) as [|Hgt]; [assumption|].
  pose proof (digits2_pos_lower p) as Hl.
  assert (2 ^ 53 <= 2 ^ (Zpos (digits2_pos p) - 1)) by (apply Z.pow_le_mono_r; lia).
  lia.
Qed.

(** A mantissa of 53 bits with an exponent in range is already rounded. *)
Lemma binary_round_aux_canonical s mz ez :
  Zpos (digits2_pos mz) = 53 -> -1074 <= ez <= 971 ->
  binary_round_aux prec emax s (Zpos mz) ez loc_Exact = S754_finite s mz ez.
Proof.
  intros Hd He.
  assert (Hf : fexp prec emax (Zdigits2 (Zpos mz) + ez) - ez = 0).
  { unfold fexp, emin, prec, emax. simpl Zdigits2. rewrite Hd. lia. }
  unfold binary_round_aux.
  assert (H1 : shr_fexp prec emax (Zpos mz) ez loc_Exact
               = (Build_shr_record (Zpos mz) false false, ez)).
  { unfold shr_fexp. rewrite Hf. reflexivity. }
  rewrite H1. cbn [shr_m loc_of_shr_record round_nearest_even]. rewrite H1.
  cbn [shr_m].
  destruct (ez <=? emax - prec) eqn:E; [reflexivity|].
  apply Z.leb_gt in E. unfold emax, prec in E. lia.
Qed.

Lemma binary_round_small s p :
  Zpos p < 2 ^ 53 ->
  exists mz ez,
    binary_round prec emax s p 0 = S754_finite s mz ez
    /\ -52 <= ez <= 0 /\ Zpos mz = Zpos p * 2 ^ (- ez).
Proof.
  intros Hp. pose proof (digits2_pos_53 p Hp) as Hd.
  unfold binary_round.
  assert (Hf : fexp prec emax (Zpos (digits2_pos p) + 0) = Zpos (digits2_pos p) - 53).
  { unfold fexp, emin, prec, emax. lia. }
  rewrite Hf. unfold shl_align.
  destruct (Zpos (digits2_pos p) - 53 - 0) as [|k|k] eqn:Ek; try lia.
  - exists p, 0. split; [|split; [lia | simpl; lia]].
    apply binary_round_aux_canonical; lia.
  - exists (Pos.iter xO p k), (Zpos (digits2_pos p) - 53).
    assert (Hk : Zpos k = 53 - Zpos (digits2_pos p)) by lia.
    split; [|split; [lia|]].
    + apply binary_round_aux_canonical; [|lia].
      rewrite digits2_pos_iter_xO, Pos2Z.inj_add. lia.
    + rewrite Zpos_iter_xO. f_equal. f_equal. lia.
Qed.

Lemma tenths_of_int mz ez p :
  -52 <= ez <= 0 -> Zpos mz = Zpos p * 2 ^ (- ez) -> tenths mz ez = Zpos p * 10.
Proof.
  intros He Hm. unfold tenths.
  destruct (0 <=? ez) eqn:E.
  - apply Z.leb_le in E. assert (ez = 0) by lia. subst ez. simpl in Hm. rewrite Hm. simpl. lia.
  - assert (Hpos : 0 < 2 ^ (- ez)) by (apply Z.pow_pos_nonneg; lia).
    rewrite Hm.
    replace (Zpos p * 2 ^ (- ez) * 10) with (Zpos p * 10 * 2 ^ (- ez)) by lia.
    rewrite Z.mod_mul, Z.div_mul by lia.
    replace (2 * 0) with 0 by lia.
    destruct (0 ?= 2 ^ (- ez)) eqn:C; try reflexivity.
    + apply Z.compare_eq in C. lia.
    + apply Z.compare_gt_iff in C. lia.
Qed.

(** An int below 2^53 in absolute value is converted exactly and printed
    as itself with [.0]. *)
Lemma int_relayed_unchanged k :
  - 2 ^ 53 < k < 2 ^ 53 ->
  exists x, float_of_int k = inr x
            /\ format_1f x = (if k <? 0 then "-" else "") ++ decimal (Z.abs k) ++ ".0".
Proof.
  intros Hk. unfold float_of_int, binary_normalize.
  destruct k as [|p|p].
  - eexists; split; reflexivity.
  - destruct (binary_round_small false p) as [mz [ez [Hr [He Hm]]]]; [lia|].
    rewrite Hr. eexists; split; [reflexivity|].
    unfold format_1f. rewrite (tenths_of_int mz ez p He Hm).
    rewrite Z.div_mul, Z.mod_mul by lia. reflexivity.
  - destruct (binary_round_small true p) as [mz [ez [Hr [He Hm]]]]; [lia|].
    rewrite Hr. eexists; split; [reflexivity|].
    unfold format_1f. rewrite (tenths_of_int mz ez p He Hm).
    rewrite Z.div_mul, Z.mod_mul by lia. reflexivity.
Qed.


(** ** The line for a reading *)

Lemma is_digit_plain c : is_digit c = true -> plain_char c = true.
Proof.
  unfold is_digit, plain_char. intros H. apply andb_true_iff in H as [H1 H2].
  apply Z.leb_le in H1. apply Z.leb_le in H2.
  apply andb_true_iff. split.
  - apply negb_true_iff. apply Z.eqb_neq. lia.
  - apply Z.ltb_lt. lia.
Qed.

Lemma digits_plain l : forallb is_digit l = true -> forallb plain_char l = true.
Proof.
  induction l as [|c l IH]; [reflexivity|]. simpl. intros H.
  apply andb_true_iff in H as [Hc Hl]. now rewrite (is_digit_plain c Hc), IH.
Qed.

(** The text [.1f] produces is plain. *)
Lemma format_1f_plain x : forallb plain_char (chars (format_1f x)) = true.
Proof.
  destruct x as [s|s| |s m e]; try (destruct s; reflexivity); try reflexivity.
  unfold format_1f. rewrite !chars_app, !forallb_app.
  rewrite (digits_plain _ (decimal_digits _)), (digits_plain _ (decimal_digits _)).
  destruct s; reflexivity.
Qed.

Lemma plain_is_ascii l : forallb plain_char l = true -> forallb (fun c => code c <? 128) l = true.
Proof.
  induction l as [|c l IH]; [reflexivity|]. simpl. intros H.
  apply andb_true_iff in H as [Hc Hl]. unfold plain_char in Hc.
  apply andb_true_iff in Hc as [_ Hc]. now rewrite Hc, IH.
Qed.

(** ASCII text is encoded byte for byte. *)
Lemma encode_utf8_ascii s :
  forallb (fun c => code c <? 128) (chars s) = true -> encode_utf8 s = list_byte_of_string s.
Proof.
  unfold list_byte_of_string, chars.
  induction s as [|c s IH]; [reflexivity|]. simpl. intros H.
  apply andb_true_iff in H as [Hc Hs]. now rewrite Hc, IH.
Qed.

Lemma forallb_rev {A} (f : A -> bool) l : forallb f (rev l) = forallb f l.
Proof.
  induction l as [|a l IH]; [reflexivity|]. simpl.
  rewrite forallb_app, IH. simpl. rewrite andb_true_r. apply andb_comm.
Qed.

(** The message for any float, finite or not, is one line of ASCII. *)
Lemma message_for_single_line x : single_line (message_for x) = true.
Proof.
  unfold single_line, message_for.
  assert (Ha : forallb (fun c => code c <? 128) (chars (format_1f x ++ nl)) = true).
  { rewrite chars_app, forallb_app, (plain_is_ascii _ (format_1f_plain x)). reflexivity. }
  rewrite (encode_utf8_ascii _ Ha), string_of_list_byte_of_string, chars_app, rev_app_distr.
  change (rev (chars nl)) with [chr 10].
  change ([chr 10] ++ rev (chars (format_1f x)))%list
    with (chr 10 :: rev (chars (format_1f x))).
  cbv iota. change (code (chr 10) =? 10) with true. cbn [andb].
  rewrite forallb_rev. apply format_1f_plain.
Qed.

(** ** Decimal text read back *)

Lemma digits_value_acc d : forall acc,
  fold_left (fun a c => 10 * a + digit_val c) (chars (NilEmpty.string_of_uint d)) (Zpos acc)
  = Zpos (Pos.of_uint_acc d acc).
Proof.
  unfold chars.
  induction d as [|d IH|d IH|d IH|d IH|d IH|d IH|d IH|d IH|d IH|d IH]; intros acc;
    cbn [NilEmpty.string_of_uint list_ascii_of_string fold_left Pos.of_uint_acc];
    try reflexivity;
    rewrite <- IH; f_equal; unfold digit_val; vm_compute code; lia.
Qed.

Lemma digits_value_uint d :
  digits_value (chars (NilEmpty.string_of_uint d)) = Z.of_N (N.of_uint d).
Proof.
  unfold digits_value, N.of_uint.
  induction d as [|d IH|d IH|d IH|d IH|d IH|d IH|d IH|d IH|d IH|d IH];
    try reflexivity; try exact IH;
    unfold chars;
    cbn [NilEmpty.string_of_uint list_ascii_of_string fold_left Pos.of_uint Z.of_N];
    rewrite <- digits_value_acc; unfold chars; f_equal.
Qed.

(** The decimal text of a natural number has that number as its value. *)
Lemma digits_value_decimal n : 0 <= n -> digits_value (chars (decimal n)) = n.
Proof.
  intros Hn. unfold decimal, NilZero.string_of_uint.
  pose proof (DecimalN.Unsigned.of_to (Z.to_N n)) as Hr.
  destruct (N.to_uint (Z.to_N n)) eqn:E;
    try (rewrite digits_value_uint, Hr; lia).
  simpl in Hr. change (digits_value (chars "0")) with 0. lia.
Qed.

Lemma is_digit_facts c :
  is_digit c = true ->
  Py_ISSPACE c = false /\ Ascii.eqb c "_" = false /\ (code c <? 128) = true
  /\ Ascii.eqb c "-" = false /\ Ascii.eqb c "+" = false.
Proof.
  destruct c as [[] [] [] [] [] [] [] []]; intros H; try discriminate H;
    repeat split; reflexivity.
Qed.

Lemma drop_underscores_digits l : forall prev,
  forallb is_digit l = true -> Ascii.eqb prev "_" = false ->
  drop_underscores prev l = Some l.
Proof.
  induction l as [|c l IH]; intros prev Hd Hp; simpl.
  - now rewrite Hp.
  - simpl in Hd. apply andb_true_iff in Hd as [Hc Hl].
    destruct (is_digit_facts c Hc) as [_ [Hu _]].
    rewrite Hu, Hp, Hc. simpl. now rewrite (IH c Hl Hu).
Qed.

Lemma lstrip_digit c l : is_digit c = true -> lstrip (c :: l) = c :: l.
Proof. intros Hc. simpl. destruct (is_digit_facts c Hc) as [Hs _]. now rewrite Hs. Qed.

Lemma digits_is_ascii l : forallb is_digit l = true -> is_ascii l = true.
Proof.
  unfold is_ascii. induction l as [|c l IH]; [reflexivity|]. simpl. intros H.
  apply andb_true_iff in H as [Hc Hl].
  destruct (is_digit_facts c Hc) as [_ [_ [Ha _]]]. now rewrite Ha, IH.
Qed.

(** [int()] reads a string of digits as its value, up to the digit limit. *)
Lemma int_of_digits l :
  l <> [] -> forallb is_digit l = true ->
  (Z.of_nat (List.length l) <= max_str_digits) ->
  int_of_str (string_of_list_ascii l) = inr (digits_value l).
Proof.
  intros Hne Hd Hlen. unfold int_of_str, chars.
  rewrite list_ascii_of_string_of_list_ascii.
  unfold transform_decimal_and_space. rewrite (digits_is_ascii l Hd).
  destruct l as [|c r]; [congruence|].
  assert (Hc : is_digit c = true) by (simpl in Hd; now apply andb_true_iff in Hd as [Hc _]).
  rewrite (lstrip_digit c r Hc).
  destruct (is_digit_facts c Hc) as [_ [Hu [_ [Hm Hpl]]]].
  assert (Hsign : split_sign (c :: r) = (false, c :: r)).
  { unfold split_sign. destruct c as [[] [] [] [] [] [] [] []]; try reflexivity;
      discriminate Hc. }
  rewrite Hsign.
  assert (Hnot : match c :: r with "_"%char :: _ => true | _ => false end = false).
  { destruct c as [[] [] [] [] [] [] [] []]; try reflexivity; discriminate Hc. }
  assert (Hrev : rev (lstrip (rev (c :: r))) = c :: r).
  { assert (Hr : forallb is_digit (rev (c :: r)) = true) by (rewrite forallb_rev; exact Hd).
    destruct (rev (c :: r)) as [|c' r'] eqn:E.
    - apply (f_equal (@rev ascii)) in E. rewrite rev_involutive in E. discriminate E.
    - assert (Hc' : is_digit c' = true)
        by (simpl in Hr; now apply andb_true_iff in Hr as [Hc' _]).
      rewrite (lstrip_digit c' r' Hc'), <- E. apply rev_involutive. }
  destruct c as [[] [] [] [] [] [] [] []]; try discriminate Hc;
    rewrite Hrev, (drop_underscores_digits _ "000"%char Hd eq_refl), Hd;
    (destruct (max_str_digits <? Z.of_nat (List.length (_ :: r))) eqn:El;
     [apply Z.ltb_lt in El; lia | reflexivity]).
Qed.

Lemma int_of_decimal n :
  0 <= n -> Z.of_nat (List.length (chars (decimal n))) <= max_str_digits ->
  int_of_str (decimal n) = inr n.
Proof.
  intros Hn Hlen.
  rewrite <- (string_of_list_ascii_of_string (decimal n)).
  change (list_ascii_of_string (decimal n)) with (chars (decimal n)).
  rewrite int_of_digits; [| apply decimal_nonempty | apply decimal_digits | exact Hlen].
  now rewrite digits_value_decimal.
Qed.

Lemma span_digits_all l : forallb is_digit l = true -> span_digits l = (l, []).
Proof.
  induction l as [|c l IH]; [reflexivity|]. simpl. intros H.
  apply andb_true_iff in H as [Hc Hl]. now rewrite Hc, (IH Hl).
Qed.

Lemma lstrip_digits l : forallb is_digit l = true -> lstrip l = l.
Proof.
  destruct l as [|c l]; [reflexivity|]. intros H. apply lstrip_digit.
  simpl in H. now apply andb_true_iff in H as [Hc _].
Qed.

Lemma strip_digits l : forallb is_digit l = true -> strip l = l.
Proof.
  intros H. unfold strip. rewrite (lstrip_digits l H).
  rewrite lstrip_digits by (now rewrite forallb_rev). apply rev_involutive.
Qed.

Lemma split_sign_digits l : forallb is_digit l = true -> split_sign l = (false, l).
Proof.
  destruct l as [|c l]; [reflexivity|]. simpl forallb. intros H.
  apply andb_true_iff in H as [Hc _].
  destruct c as [[] [] [] [] [] [] [] []]; try reflexivity; discriminate Hc.
Qed.

(** [float()] reads a string of digits as the double nearest to its
    value. *)
Lemma float_of_digits l :
  l <> [] -> forallb is_digit l = true ->
  float_of_str (string_of_list_ascii l) = inr (round_decimal false (digits_value l) 0).
Proof.
  intros Hne Hd. unfold float_of_str, chars.
  rewrite list_ascii_of_string_of_list_ascii.
  unfold transform_decimal_and_space. rewrite (digits_is_ascii l Hd).
  rewrite (strip_digits l Hd), (drop_underscores_digits l "000"%char Hd eq_refl).
  unfold parse_decimal. rewrite (split_sign_digits l Hd), (span_digits_all l Hd).
  rewrite app_nil_r. destruct l as [|c r]; [congruence|]. reflexivity.
Qed.

Lemma float_of_str_decimal k :
  0 <= k -> float_of_str (decimal k) = inr (binary_normalize prec emax k 0 false).
Proof.
  intros Hk.
  rewrite <- (string_of_list_ascii_of_string (decimal k)).
  change (list_ascii_of_string (decimal k)) with (chars (decimal k)).
  rewrite float_of_digits; [| apply decimal_nonempty | apply decimal_digits].
  rewrite (digits_value_decimal k Hk). f_equal.
  destruct k as [|p|p]; [reflexivity | | lia].
  unfold round_decimal, binary_normalize.
  change (0 <=? 0) with true. cbv iota.
  change (Z.to_pos (10 ^ 0)) with 1%positive. now rewrite Pos.mul_1_r.
Qed.

(** A string that holds the decimal numeral of an int below 2^53 is
    converted exactly and printed as that numeral with [.0]. *)
Lemma numeral_relayed_unchanged k x :
  0 <= k < 2 ^ 53 -> float_of_str (decimal k) = inr x ->
  format_1f x = decimal k ++ ".0".
Proof.
  intros Hk Hx. rewrite (float_of_str_decimal k) in Hx by lia.
  destruct (int_relayed_unchanged k) as [y [Hy Ht]]; [lia|].
  unfold float_of_int in Hy.
  assert (Hxy : x = y).
  { destruct (binary_normalize prec emax k 0 false); congruence. }
  subst y. rewrite Ht.
  destruct (k <? 0) eqn:E; [apply Z.ltb_lt in E; lia|].
  now rewrite Z.abs_eq by lia.
Qed.

(** ** The data path, end to end *)

Lemma read_body_frame n w payload w1 :
  read_body n w = (payload, w1) ->
  wfile w1 = wfile w /\ serial_conn w1 = serial_conn w.
Proof.
  unfold read_body, rfile_read, ret.
  destruct (n =? 0); [|destruct (n <? -1); [|destruct (n =? -1)]];
    intros H; inversion H; subst; simpl; auto.
Qed.

(** The successful run of [do_POST], from the header to the write. *)
Lemma do_POST_forwards json_loads self w n payload w1 x s :
  path self = "/wind-speed" ->
  content_length self = inr n ->
  read_body n w = (inr payload, w1) ->
  wind_speed_of json_loads payload = inr x ->
  serial_conn w = Some s ->
  fault s = None ->
  do_POST json_loads self w
  = (inr tt,
     mkWorld (rfile w1)
             (wfile w ++ json_response self 200 (b (q "{'status':'ok'}")))
             (Some (mkSerial (tx s ++ [message_for x]) None))).
Proof.
  intros Hp Hn Hr Hx Hs Hf.
  rewrite (do_POST_wind_speed _ _ _ Hp), Hn, Hr, Hx.
  destruct (read_body_frame _ _ _ _ Hr) as [Hw Hc].
  unfold forwarded. rewrite Hc, Hs, Hf. unfold respond. simpl. now rewrite Hw.
Qed.

Lemma wind_speed_of_member json_loads payload d v :
  json_loads payload = inr (JObject d) ->
  dict_get d "windSpeedKmh" = Some v ->
  wind_speed_of json_loads payload = float_of v.
Proof.
  intros Hl Hd. unfold wind_speed_of. rewrite Hl. unfold getitem. now rewrite Hd.
Qed.

(** ** C1 *)

(** C1, as stated, fails: the body [{"windSpeedKmh": 1e999}] holds a valid
    JSON number; the handler answers 200 and writes the line [inf], which is
    not fixed-point text with one digit after the point.  And an int of 401
    digits, valid JSON as well, is not answered at all: [float()] raises
    OverflowError, no [except] clause lists it, and nothing is sent or
    written. *)
Lemma C1_counterexample :
  let body := q "{'windSpeedKmh': 1e999}" in
  let self := post "/wind-speed" body in
  let huge := q "{'windSpeedKmh': 1" ++ zeros 400 ++ "}" in
  (loads_text body = Some (inr (JObject [("windSpeedKmh", JFloat (S754_infinity false))]))
   /\ do_POST json_loads_ascii self (incoming body (Some idle_port))
      = (inr tt,
         mkWorld [] (json_response self 200 (b (q "{'status':'ok'}")))
                 (Some (mkSerial [b ("inf" ++ nl)] None)))
   /\ one_decimal_line (b ("inf" ++ nl)) = false)
  /\ do_POST json_loads_ascii (post "/wind-speed" huge) (incoming huge (Some idle_port))
     = (inl OverflowError, mkWorld [] [] (Some idle_port)).
Proof. vm_compute. repeat split; reflexivity. Qed.

(** C1, amended: for every JSON number [v] that [float()] converts, and
    with the serial connection initialised and its write succeeding, a POST
    to /wind-speed whose body is an object with [windSpeedKmh] set to [v]
    is answered 200 with the body [{"status":"ok"}] and causes exactly one
    serial write, of [float(v)] formatted with [.1f], a newline, as UTF-8.
    The text is fixed-point with exactly one digit after the point when
    the float is finite, and [nan], [inf] or [-inf] otherwise.  No range
    check is applied: negative values pass, and an int of absolute value
    below 2^53 is written as itself followed by [.0]. *)
Theorem C1_number_relayed json_loads self w n payload w1 d v x s :
  path self = "/wind-speed" ->
  content_length self = inr n ->
  read_body n w = (inr payload, w1) ->
  json_loads payload = inr (JObject d) ->
  dict_get d "windSpeedKmh" = Some v ->
  is_number v = true ->
  float_of v = inr x ->
  serial_conn w = Some s ->
  fault s = None ->
  do_POST json_loads self w
  = (inr tt,
     mkWorld (rfile w1)
             (wfile w ++ json_response self 200 (b (q "{'status':'ok'}")))
             (Some (mkSerial (tx s ++ [encode_utf8 (format_1f x ++ nl)]) None)))
  /\ (if is_finite x then fixed_point_1 (format_1f x) = true
      else In (format_1f x) ["nan"; "inf"; "-inf"])
  /\ (forall k, v = JInt k -> - 2 ^ 53 < k < 2 ^ 53 ->
                format_1f x = (if k <? 0 then "-" else "") ++ decimal (Z.abs k) ++ ".0").
Proof.
  intros Hp Hn Hr Hl Hd _ Hx Hs Hf. split; [|split].
  - apply (do_POST_forwards json_loads self w n payload w1 x s); auto.
    rewrite (wind_speed_of_member _ _ _ _ Hl Hd). exact Hx.
  - destruct (is_finite x) eqn:E.
    + now apply format_1f_finite.
    + now apply format_1f_not_finite.
  - intros k Hv Hk. subst v. simpl in Hx.
    destruct (int_relayed_unchanged k Hk) as [x' [Hx' Ht]].
    rewrite Hx in Hx'. inversion Hx'; subst x'. exact Ht.
Qed.

(** The example of the specification: 7 writes [7.0] and a newline. *)
Lemma C1_number_relayed_witness :
  let body := q "{'windSpeedKmh': 7}" in
  let self := post "/wind-speed" body in
  let x := S754_finite false 7881299347898368 (-50) in
  (path self = "/wind-speed"
   /\ content_length self = inr 19
   /\ read_body 19 (incoming body (Some idle_port))
      = (inr (b body), mkWorld [] [] (Some idle_port))
   /\ json_loads_ascii (b body) = inr (JObject [("windSpeedKmh", JInt 7)])
   /\ float_of (JInt 7) = inr x)
  /\ do_POST json_loads_ascii self (incoming body (Some idle_port))
     = (inr tt,
        mkWorld [] (json_response self 200 (b (q "{'status':'ok'}")))
                (Some (mkSerial [b ("7.0" ++ nl)] None)))
  /\ fixed_point_1 "7.0" = true.
Proof.
  intros body self x.
  assert (H1 : path self = "/wind-speed") by reflexivity.
  assert (H2 : content_length self = inr 19) by (vm_compute; reflexivity).
  assert (H3 : read_body 19 (incoming body (Some idle_port))
               = (inr (b body), mkWorld [] [] (Some idle_port))) by (vm_compute; reflexivity).
  assert (H4 : json_loads_ascii (b body) = inr (JObject [("windSpeedKmh", JInt 7)]))
    by (vm_compute; reflexivity).
  assert (H5 : float_of (JInt 7) = inr x) by (vm_compute; reflexivity).
  split; [repeat split; assumption|].
  destruct (C1_number_relayed json_loads_ascii self (incoming body (Some idle_port)) 19 (b body)
              (mkWorld [] [] (Some idle_port)) [("windSpeedKmh", JInt 7)] (JInt 7) x idle_port
              H1 H2 H3 H4 eq_refl eq_refl H5 eq_refl eq_refl) as [Hrun [Hshape _]].
  exact (conj Hrun Hshape).
Defined.

(** More readings, from the body to the line on the wire. *)
Example readings_relayed :
  map (fun body => message_of json_loads_ascii (post "/wind-speed" body) (b body))
      [ q "{'windSpeedKmh': 12.34}";
        q "{'windSpeedKmh': -5}";
        q "{'windSpeedKmh': 0.25}";
        q "{'windSpeedKmh': 1e3}";
        q "{'windSpeedKmh': -0.04}";
        q "{'unit': 'km/h', 'windSpeedKmh': 99.95}";
        q "{'windSpeedKmh': 1, 'windSpeedKmh': 2}";
        q "{'windSpeedKmh': 'fast'}" ]
  = [ Some (b ("12.3" ++ nl)); Some (b ("-5.0" ++ nl)); Some (b ("0.2" ++ nl));
      Some (b ("1000.0" ++ nl)); Some (b ("-0.0" ++ nl)); Some (b ("100.0" ++ nl));
      Some (b ("2.0" ++ nl)); None ].
Proof. vm_compute. reflexivity. Qed.

(** ** C2 *)

Lemma float_of_str_raises s e : float_of_str s = inl e -> e = ValueError.
Proof.
  unfold float_of_str.
  destruct (drop_underscores _ _) as [l|]; [|congruence].
  destruct (parse_decimal l); [congruence|].
  destruct (parse_inf_or_nan l); congruence.
Qed.

(** An invalid payload makes the coercion raise one of the exceptions of
    the first [except] clause. *)
Lemma invalid_payload_caught json_loads payload :
  invalid_payload (json_loads payload) = true ->
  exists e, wind_speed_of json_loads payload = inl e /\ caught_by payload_errors e = true.
Proof.
  unfold invalid_payload, wind_speed_of.
  destruct (json_loads payload) as [e|data].
  - destruct e; try discriminate; intros _; eexists; split; reflexivity.
  - destruct data as [ |t|k|x|s|l|d]; try (intros _; exists TypeError; split; reflexivity).
    unfold getitem. destruct (dict_get d "windSpeedKmh") as [v|].
    + destruct v as [ |t|k|x|s|l|d']; simpl; try discriminate;
        try (intros _; exists TypeError; split; reflexivity).
      destruct (float_of_str s) as [e|y] eqn:E; [|discriminate].
      intros _. apply float_of_str_raises in E. subst e.
      exists ValueError; split; reflexivity.
    + intros _. exists KeyError; split; reflexivity.
Qed.

(** A POST to /wind-speed whose body [json.loads] rejects with its decode
    error (malformed JSON, or bytes that are not text), or decodes to
    something that is not an object, or to an object without
    [windSpeedKmh], or with a value for it that is null, an array, an
    object or a string [float()] rejects, is answered 400 with the body
    [{"error":"invalid_payload"}], and the serial port is left as it was.
    When [json.loads] raises an exception that line 55 does not list, the
    request gets no response at all; the port is left as it was then
    too. *)
Lemma invalid_payload_rejected json_loads self w n payload w1 :
  path self = "/wind-speed" ->
  content_length self = inr n ->
  read_body n w = (inr payload, w1) ->
  (invalid_payload (json_loads payload) = true ->
   do_POST json_loads self w
   = (inr tt,
      mkWorld (rfile w1)
              (wfile w ++ json_response self 400 (b (q "{'error':'invalid_payload'}")))
              (serial_conn w)))
  /\ (forall e, json_loads payload = inl e -> caught_by payload_errors e = false ->
        do_POST json_loads self w = (inl e, mkWorld (rfile w1) (wfile w) (serial_conn w))).
Proof.
  intros Hp Hn Hr.
  destruct (read_body_frame _ _ _ _ Hr) as [Hw Hs]. split.
  - intros Hi. destruct (invalid_payload_caught _ _ Hi) as [e [He Hc]].
    rewrite (do_POST_wind_speed _ _ _ Hp), Hn, Hr, He, Hc.
    unfold respond. now rewrite Hw, Hs.
  - intros e He Hc.
    rewrite (do_POST_wind_speed _ _ _ Hp), Hn, Hr.
    unfold wind_speed_of. rewrite He, Hc.
    destruct w1 as [rf wf sc]. simpl in *. now subst.
Qed.

(** The example of the specification: the value ["fast"] is answered 400. *)
Example invalid_payload_rejected_fast :
  let body := q "{'windSpeedKmh': 'fast'}" in
  let self := post "/wind-speed" body in
  (path self = "/wind-speed"
   /\ content_length self = inr 24
   /\ read_body 24 (incoming body (Some idle_port))
      = (inr (b body), mkWorld [] [] (Some idle_port))
   /\ json_loads_ascii (b body) = inr (JObject [("windSpeedKmh", JString "fast")])
   /\ invalid_payload (json_loads_ascii (b body)) = true)
  /\ do_POST json_loads_ascii self (incoming body (Some idle_port))
     = (inr tt,
        mkWorld [] (json_response self 400 (b (q "{'error':'invalid_payload'}")))
                (Some idle_port)).
Proof.
  intros body self.
  assert (H1 : path self = "/wind-speed") by reflexivity.
  assert (H2 : content_length self = inr 24) by (vm_compute; reflexivity).
  assert (H3 : read_body 24 (incoming body (Some idle_port))
               = (inr (b body), mkWorld [] [] (Some idle_port))) by (vm_compute; reflexivity).
  assert (H4 : json_loads_ascii (b body) = inr (JObject [("windSpeedKmh", JString "fast")]))
    by (vm_compute; reflexivity).
  assert (H5 : invalid_payload (json_loads_ascii (b body)) = true) by (vm_compute; reflexivity).
  split; [repeat split; assumption|].
  exact (proj1 (invalid_payload_rejected json_loads_ascii self
                  (incoming body (Some idle_port)) 24
                  (b body) (mkWorld [] [] (Some idle_port)) H1 H2 H3) H5).
Qed.

(** Each kind of invalid body, run through the reference decoder. *)
Example invalid_bodies :
  map (fun body => invalid_payload (json_loads_ascii (b body)))
      [ q "{'windSpeedKmh': 7";          (* truncated *)
        q "[7]";                          (* not an object *)
        q "{'speed': 7}";                 (* field missing *)
        q "{'windSpeedKmh': 'fast'}";     (* string that does not parse *)
        q "{'windSpeedKmh': {'v': 7}}";   (* object *)
        q "{'windSpeedKmh': null}";       (* null *)
        q "{'windSpeedKmh': [7]}";        (* array *)
        "{}" ]                            (* what an absent body stands for *)
  = [true; true; true; true; true; true; true; true].
Proof. vm_compute. reflexivity. Qed.

(** C2 fails on the code for malformed JSON that is nested deeply: a body
    of 100000 opening brackets, arrays inside arrays cut off before any is
    closed, makes [json.loads] raise RecursionError before it meets the end
    of the text.  RecursionError is not among the classes of line 55, so
    the exception leaves [do_POST]: nothing is sent, the client gets no
    400, and the port is untouched. *)
Theorem C2_deep_nesting_unanswered :
  let body := open_brackets (Z.to_nat 100000) in
  let self := post "/wind-speed" body in
  let run := do_POST json_loads_ascii self (incoming body (Some idle_port)) in
  content_length self = inr 100000
  /\ json_loads_ascii (b body) = inl RecursionError
  /\ caught_by payload_errors RecursionError = false
  /\ run = (inl RecursionError, mkWorld [] [] (Some idle_port))
  /\ status_of (wfile (snd run)) <> Some 400.
Proof.
  cbv zeta.
  assert (H : do_POST json_loads_ascii (post "/wind-speed" (open_brackets (Z.to_nat 100000)))
                (incoming (open_brackets (Z.to_nat 100000)) (Some idle_port))
              = (inl RecursionError, mkWorld [] [] (Some idle_port)))
    by (vm_compute; reflexivity).
  rewrite H.
  split; [vm_compute; reflexivity|].
  split; [vm_compute; reflexivity|].
  split; [reflexivity|].
  split; [reflexivity | discriminate].
Qed.

(** ** C4 *)

Lemma encode_utf8_app s t : encode_utf8 (s ++ t) = (encode_utf8 s ++ encode_utf8 t)%list.
Proof.
  induction s as [|c s IH]; simpl; [reflexivity|].
  destruct (code c <? 128); simpl; now rewrite IH.
Qed.

Lemma encode_utf8_nil s : encode_utf8 s = [] -> s = "".
Proof. destruct s as [|c s]; [reflexivity|]. simpl. destruct (code c <? 128); discriminate. Qed.

Lemma escape_char_nonempty c : escape_char c <> "".
Proof.
  unfold escape_char.
  repeat match goal with |- context [if ?t then _ else _] => destruct t; try discriminate end.
Qed.

Lemma escape_chars_nil s : escape_chars s = "" -> s = "".
Proof.
  destruct s as [|c s]; [reflexivity|]. simpl.
  pose proof (escape_char_nonempty c) as Hc.
  destruct (escape_char c); [congruence | discriminate].
Qed.

Lemma string_app_assoc (s t u : string) : ((s ++ t) ++ u = s ++ (t ++ u))%string.
Proof. induction s as [|c s IH]; simpl; [reflexivity | now rewrite IH]. Qed.

(** The 500 body shows its details between fixed text. *)
Lemma serial_error_body_shape details :
  serial_error_body details
  = (b (q "{'error': 'serial_error', 'details': '")
     ++ encode_utf8 (escape_chars details)
     ++ b (q "'}"))%list.
Proof.
  unfold serial_error_body, json_dumps, dumps_members, dumps_str.
  change (b (q "{'error': 'serial_error', 'details': '"))
    with (encode_utf8 (q "{'error': 'serial_error', 'details': '")).
  change (b (q "'}")) with (encode_utf8 (q "'}")).
  rewrite <- !encode_utf8_app. f_equal.
  cbn. rewrite string_app_assoc. reflexivity.
Qed.

(** Only empty details give the body with empty details. *)
Lemma serial_error_body_empty details :
  serial_error_body details = serial_error_body "" -> details = "".
Proof.
  rewrite !serial_error_body_shape. intros H.
  apply app_inv_head in H. apply app_inv_tail in H.
  apply encode_utf8_nil in H. now apply escape_chars_nil.
Qed.

(** C4, as stated, fails where the connection was never initialised: the
    bare [assert] raises an AssertionError without text, and the 500 body
    carries empty details. *)
Lemma C4_counterexample :
  let body := q "{'windSpeedKmh': 7}" in
  let self := post "/wind-speed" body in
  do_POST json_loads_ascii self (incoming body None)
  = (inr tt,
     mkWorld [] (json_response self 500 (b (q "{'error': 'serial_error', 'details': ''}")))
             None)
  /\ ~ (exists details,
          details <> ""
          /\ b (q "{'error': 'serial_error', 'details': ''}") = serial_error_body details).
Proof.
  split; [vm_compute; reflexivity|].
  intros [details [Hne H]]. apply Hne. apply serial_error_body_empty.
  rewrite <- H. vm_compute. reflexivity.
Qed.

(** C4, amended: for a POST to /wind-speed with a valid numeric payload,
    if the serial connection has not been initialised or the write raises
    a SerialException, the response is 500 with the JSON body
    [{"error": "serial_error", "details": d}], where [d] is the text of the
    exception: the message of the SerialException, non-empty whenever that
    message is (the body then differs from the one with empty details), and
    the empty string when the connection was not initialised.  Nothing is
    recorded as written. *)
Theorem C4_serial_failure_reported json_loads self w n payload w1 x details :
  path self = "/wind-speed" ->
  content_length self = inr n ->
  read_body n w = (inr payload, w1) ->
  wind_speed_of json_loads payload = inr x ->
  (serial_conn w = None /\ details = ""
   \/ exists s, serial_conn w = Some s /\ fault s = Some details) ->
  do_POST json_loads self w
  = (inr tt,
     mkWorld (rfile w1)
             (wfile w ++ json_response self 500
                           (encode_utf8 (json_dumps [("error", "serial_error");
                                                     ("details", details)])))
             (serial_conn w))
  /\ (details <> "" -> serial_error_body details <> serial_error_body "").
Proof.
  intros Hp Hn Hr Hx Hs. split.
  - rewrite (do_POST_wind_speed _ _ _ Hp), Hn, Hr, Hx.
    destruct (read_body_frame _ _ _ _ Hr) as [Hw Hc].
    unfold forwarded. rewrite Hc.
    destruct Hs as [[Hnone Hd] | [s [Hsome Hf]]].
    + rewrite Hnone, Hd. unfold respond, serial_error_body. now rewrite Hw, Hc, Hnone.
    + rewrite Hsome, Hf. unfold respond, serial_error_body. now rewrite Hw, Hc, Hsome.
  - intros Hne Hd. apply Hne. now apply serial_error_body_empty.
Qed.

(** A write that times out. *)
Lemma C4_serial_failure_reported_witness :
  let body := q "{'windSpeedKmh': 7}" in
  let self := post "/wind-speed" body in
  let port := mkSerial [] (Some "Write timeout") in
  let x := S754_finite false 7881299347898368 (-50) in
  (path self = "/wind-speed"
   /\ content_length self = inr 19
   /\ read_body 19 (incoming body (Some port)) = (inr (b body), mkWorld [] [] (Some port))
   /\ wind_speed_of json_loads_ascii (b body) = inr x)
  /\ do_POST json_loads_ascii self (incoming body (Some port))
     = (inr tt,
        mkWorld []
          (json_response self 500
             (b (q "{'error': 'serial_error', 'details': 'Write timeout'}")))
          (Some port)).
Proof.
  intros body self port x.
  assert (H1 : path self = "/wind-speed") by reflexivity.
  assert (H2 : content_length self = inr 19) by (vm_compute; reflexivity).
  assert (H3 : read_body 19 (incoming body (Some port))
               = (inr (b body), mkWorld [] [] (Some port))) by (vm_compute; reflexivity).
  assert (H4 : wind_speed_of json_loads_ascii (b body) = inr x) by (vm_compute; reflexivity).
  split; [repeat split; assumption|].
  exact (proj1 (C4_serial_failure_reported json_loads_ascii self (incoming body (Some port)) 19
                  (b body) (mkWorld [] [] (Some port)) x "Write timeout" H1 H2 H3 H4
                  (or_intror (ex_intro _ port (conj eq_refl eq_refl))))).
Defined.

(** ** C5 *)

Lemma send_error_run error_page self code w :
  send_error error_page self code w = (inr tt, respond w (error_response error_page self code)).
Proof.
  unfold send_error, error_response, send_response, send_header, end_headers, wfile_write.
  cbv zeta.
  destruct (negb (String.eqb (command self) "HEAD")
            && negb (Nat.eqb (List.length (error_page code (command self))) 0)).
  - unfold bind. rewrite !emit_run, !respond_respond. reflexivity.
  - unfold bind, ret. rewrite !emit_run, !respond_respond. reflexivity.
Qed.

Lemma handle_unsupported json_loads error_page self w :
  command self <> "POST" -> command self <> "OPTIONS" ->
  handle_one_request json_loads error_page self w
  = (inr tt, respond w (error_response error_page self 501)).
Proof.
  intros H1 H2. unfold handle_one_request.
  destruct (String.eqb (command self) "POST") eqn:E1;
    [apply String.eqb_eq in E1; contradiction|].
  destruct (String.eqb (command self) "OPTIONS") eqn:E2;
    [apply String.eqb_eq in E2; contradiction|].
  apply send_error_run.
Qed.

(** A POST is served by [do_POST]. *)
Lemma handle_POST json_loads error_page self :
  command self = "POST" ->
  handle_one_request json_loads error_page self = do_POST json_loads self.
Proof. intros Hc. unfold handle_one_request. now rewrite Hc. Qed.

(** C5, as stated, fails for a GET: the class has no [do_GET], and the
    library answers 501 with an HTML page, not 404 with the JSON body. *)
Lemma C5_counterexample :
  let self := get "/wind-speed" in
  let w := incoming "" (Some idle_port) in
  let resp := wfile (snd (handle_one_request json_loads_ascii plain_error_page self w)) in
  status_of resp = Some 501
  /\ status_of resp <> Some 404
  /\ carries resp "Content-Type" "text/html;charset=utf-8"
  /\ ~ carries resp "Content-Type" "application/json".
Proof.
  cbv zeta. unfold carries. vm_compute. repeat split; try discriminate; try tauto.
  intros H. repeat (destruct H as [H|H]; [discriminate H|]). exact H.
Qed.

(** C5, amended: a POST to any path other than /wind-speed is answered 404
    with the body [{"error":"not_found"}]; a request whose method is neither
    POST nor OPTIONS is answered by the library with 501 and its HTML error
    page, because the handler class defines no method for it. *)
Theorem C5_other_requests json_loads error_page self w :
  (command self = "POST" -> path self <> "/wind-speed" ->
   handle_one_request json_loads error_page self w
   = (inr tt, respond w (json_response self 404 (b (q "{'error':'not_found'}")))))
  /\ (command self <> "POST" -> command self <> "OPTIONS" ->
      handle_one_request json_loads error_page self w
      = (inr tt, respond w (error_response error_page self 501))
      /\ status_of (error_response error_page self 501) = Some 501
      /\ carries (error_response error_page self 501) "Content-Type" "text/html;charset=utf-8").
Proof.
  split.
  - intros Hc Hp. unfold handle_one_request. rewrite Hc. cbn [String.eqb].
    change (String.eqb "POST" "POST") with true. cbv iota.
    now apply do_POST_other_path.
  - intros H1 H2. split; [now apply handle_unsupported|].
    split; [reflexivity|]. unfold carries, error_response. simpl. tauto.
Qed.

(** The example of the specification, POST to /other, and a GET. *)
Lemma C5_other_requests_witness :
  let body := q "{'windSpeedKmh': 7}" in
  (command (post "/other" body) = "POST" /\ path (post "/other" body) <> "/wind-speed"
   /\ command (get "/wind-speed") <> "POST" /\ command (get "/wind-speed") <> "OPTIONS")
  /\ handle_one_request json_loads_ascii plain_error_page (post "/other" body)
       (incoming body (Some idle_port))
     = (inr tt,
        mkWorld (b body) (json_response (post "/other" body) 404 (b (q "{'error':'not_found'}")))
                (Some idle_port))
  /\ status_of (wfile (snd (handle_one_request json_loads_ascii plain_error_page
                              (get "/wind-speed") (incoming "" (Some idle_port)))))
     = Some 501.
Proof.
  intros body.
  assert (H1 : command (post "/other" body) = "POST") by reflexivity.
  assert (H2 : path (post "/other" body) <> "/wind-speed") by discriminate.
  assert (H3 : command (get "/wind-speed") <> "POST") by discriminate.
  assert (H4 : command (get "/wind-speed") <> "OPTIONS") by discriminate.
  split; [repeat split; assumption|]. split.
  - exact (proj1 (C5_other_requests json_loads_ascii plain_error_page (post "/other" body)
                    (incoming body (Some idle_port))) H1 H2).
  - rewrite (proj1 (proj2 (C5_other_requests json_loads_ascii plain_error_page
                             (get "/wind-speed") (incoming "" (Some idle_port))) H3 H4)).
    reflexivity.
Defined.

(** ** C7 *)

Lemma do_POST_bad_length json_loads self w e :
  path self = "/wind-speed" ->
  content_length self = inl e ->
  do_POST json_loads self w = (inl e, w).
Proof. intros Hp He. now rewrite (do_POST_wind_speed _ _ _ Hp), He. Qed.

(** C7 fails on the code: with the header [Content-Length: abc], line 50
    raises ValueError before the [try] opens; the exception leaves
    [do_POST], nothing has been sent, and the port is untouched.  The
    client gets no response, JSON or other. *)
Theorem C7_malformed_length_unanswered :
  let body := q "{'windSpeedKmh': 7}" in
  let self := post_with_length "/wind-speed" "abc" in
  let w := incoming body (Some idle_port) in
  content_length self = inl ValueError
  /\ handle_one_request json_loads_ascii plain_error_page self w = (inl ValueError, w)
  /\ wfile w = [].
Proof. vm_compute. repeat split; reflexivity. Qed.

(** The same happens past the [try]: an int too large for a double makes
    [float()] raise OverflowError, which the [except] clause does not
    list. *)
Example huge_int_unanswered :
  let body := q "{'windSpeedKmh': 1" ++ zeros 400 ++ "}" in
  let self := post "/wind-speed" body in
  do_POST json_loads_ascii self (incoming body (Some idle_port))
  = (inl OverflowError, mkWorld [] [] (Some idle_port)).
Proof. vm_compute. reflexivity. Qed.

(** ** C9 *)

Lemma do_OPTIONS_run self w :
  do_OPTIONS self w = (inr tt, respond w (options_response self)).
Proof.
  unfold do_OPTIONS, send_response, _set_cors_headers, send_header, end_headers, bind.
  rewrite !emit_run, !respond_respond. reflexivity.
Qed.

(** With the client connected, every run of [do_POST] either raises
    before anything is sent or written, or sends one of its five responses;
    only the 200 goes with a write, of one line. *)
Lemma do_POST_outcome json_loads self w r w' :
  do_POST json_loads self w = (r, w') ->
  (exists e, r = inl e /\ wfile w' = wfile w /\ serial_conn w' = serial_conn w)
  \/ (r = inr tt
      /\ exists resp,
           wfile w' = (wfile w ++ resp)%list
           /\ ((serial_conn w' = serial_conn w
                /\ (resp = json_response self 404 (b (q "{'error':'not_found'}"))
                    \/ resp = json_response self 400 (b (q "{'error':'invalid_payload'}"))
                    \/ (serial_conn w = None
                        /\ resp = json_response self 500 (serial_error_body ""))
                    \/ (exists s msg, serial_conn w = Some s /\ fault s = Some msg
                          /\ resp = json_response self 500 (serial_error_body msg))))
               \/ (resp = json_response self 200 (b (q "{'status':'ok'}"))
                   /\ exists s x, serial_conn w = Some s /\ fault s = None
                        /\ serial_conn w'
                           = Some (mkSerial (tx s ++ [message_for x]) None)))).
Proof.
  destruct (String.eqb (path self) "/wind-speed") eqn:Ep.
  - apply String.eqb_eq in Ep. rewrite (do_POST_wind_speed _ _ _ Ep).
    destruct (content_length self) as [e|n].
    { intros H; inversion H; subst. left. exists e. auto. }
    destruct (read_body n w) as [[e|payload] w1] eqn:Er;
      destruct (read_body_frame _ _ _ _ Er) as [Hw Hs].
    { destruct (caught_by payload_errors e); intros H; inversion H; subst.
      - right. split; [reflexivity|]. eexists. split; [simpl; rewrite Hw; reflexivity|].
        left. split; [exact Hs | tauto].
      - left. exists e. auto. }
    destruct (wind_speed_of json_loads payload) as [e|x].
    { destruct (caught_by payload_errors e); intros H; inversion H; subst.
      - right. split; [reflexivity|]. eexists. split; [simpl; rewrite Hw; reflexivity|].
        left. split; [exact Hs | tauto].
      - left. exists e. auto. }
    unfold forwarded. destruct (serial_conn w1) as [s|] eqn:Es1.
    + destruct (fault s) as [msg|] eqn:Ef; intros H; inversion H; subst.
      * right. split; [reflexivity|]. eexists. split; [simpl; rewrite Hw; reflexivity|].
        left. split; [simpl; congruence|].
        do 3 right. exists s, msg. repeat split; congruence.
      * right. split; [reflexivity|]. eexists. split; [simpl; rewrite Hw; reflexivity|].
        right. split; [reflexivity|]. exists s, x. repeat split; congruence.
    + intros H; inversion H; subst.
      right. split; [reflexivity|]. eexists. split; [simpl; rewrite Hw; reflexivity|].
      left. split; [simpl; congruence|].
      do 2 right. left. split; [congruence | reflexivity].
  - assert (Hp : path self <> "/wind-speed").
    { intros Hq. rewrite Hq in Ep. rewrite String.eqb_refl in Ep. discriminate. }
    rewrite (do_POST_other_path _ _ _ Hp). intros H; inversion H; subst.
    right. split; [reflexivity|]. eexists. split; [reflexivity|].
    left. split; [reflexivity | tauto].
Qed.

(** A response of [do_POST] carries the three CORS headers and the JSON
    content type. *)
Lemma json_response_headers self code body :
  carries (json_response self code body) "Access-Control-Allow-Origin" "*"
  /\ carries (json_response self code body) "Access-Control-Allow-Methods" "POST, OPTIONS"
  /\ carries (json_response self code body) "Access-Control-Allow-Headers" "Content-Type"
  /\ carries (json_response self code body) "Content-Type" "application/json".
Proof. unfold carries, json_response. simpl. repeat split; tauto. Qed.




(** ** C10 *)

Lemma float_of_bool t : float_of (JBool t) = inr (if t then float_one else float_zero).
Proof. destruct t; vm_compute; reflexivity. Qed.

Lemma format_1f_bool t :
  format_1f (if t : bool then float_one else float_zero) = if t then "1.0" else "0.0".
Proof. destruct t; vm_compute; reflexivity. Qed.

(** C10, as stated, fails for a string that parses as a number beyond the
    range of doubles: ["1e999"] is accepted by [float()] as infinity, the
    request is answered 200, and the line written is [inf], which is not a
    value formatted to one decimal place. *)
Lemma C10_counterexample :
  let body := q "{'windSpeedKmh': '1e999'}" in
  let self := post "/wind-speed" body in
  json_loads_ascii (b body) = inr (JObject [("windSpeedKmh", JString "1e999")])
  /\ float_of_str "1e999" = inr (S754_infinity false)
  /\ do_POST json_loads_ascii self (incoming body (Some idle_port))
     = (inr tt,
        mkWorld [] (json_response self 200 (b (q "{'status':'ok'}")))
                (Some (mkSerial [b ("inf" ++ nl)] None)))
  /\ one_decimal_line (b ("inf" ++ nl)) = false.
Proof. vm_compute. repeat split; reflexivity. Qed.

(** C10, amended: when the field is a JSON string that [float()] accepts,
    or a JSON boolean, the coercion succeeds and the request is answered
    200, not 400, with one line written to the port (the port being
    initialised and its write succeeding): the coerced value formatted with
    [.1f].  The line is fixed-point text with exactly one digit after the
    point when the coerced value is finite, and [nan], [inf] or [-inf] when
    it is not, as for the strings "nan", "inf" and "1e999".  [true] writes
    1.0 and [false] writes 0.0; a string that holds the decimal numeral of
    an int from 0 to below 2^53 writes that numeral followed by [.0]. *)
Theorem C10_string_or_boolean_coerced json_loads self w n payload w1 d v x s :
  path self = "/wind-speed" ->
  content_length self = inr n ->
  read_body n w = (inr payload, w1) ->
  json_loads payload = inr (JObject d) ->
  dict_get d "windSpeedKmh" = Some v ->
  ((exists text, v = JString text /\ float_of_str text = inr x)
   \/ (exists t, v = JBool t /\ x = if t then float_one else float_zero)) ->
  serial_conn w = Some s ->
  fault s = None ->
  do_POST json_loads self w
  = (inr tt,
     mkWorld (rfile w1)
             (wfile w ++ json_response self 200 (b (q "{'status':'ok'}")))
             (Some (mkSerial (tx s ++ [encode_utf8 (format_1f x ++ nl)]) None)))
  /\ (if is_finite x then fixed_point_1 (format_1f x) = true
      else In (format_1f x) ["nan"; "inf"; "-inf"])
  /\ (forall t, v = JBool t -> format_1f x = if t then "1.0" else "0.0")
  /\ (forall k, v = JString (decimal k) -> 0 <= k < 2 ^ 53 ->
                format_1f x = decimal k ++ ".0").
Proof.
  intros Hp Hn Hr Hl Hd Hv Hs Hf. split; [|split; [|split]].
  - apply (do_POST_forwards json_loads self w n payload w1 x s); auto.
    rewrite (wind_speed_of_member _ _ _ _ Hl Hd).
    destruct Hv as [[text [Hv Hx]] | [t [Hv Hx]]]; subst v.
    + exact Hx.
    + subst x. apply float_of_bool.
  - destruct (is_finite x) eqn:E.
    + now apply format_1f_finite.
    + now apply format_1f_not_finite.
  - intros t Ht. destruct Hv as [[text [Hv _]] | [t' [Hv Hx]]]; [congruence|].
    assert (t' = t) by congruence. subst t' x. apply format_1f_bool.
  - intros k Hk Hrange. destruct Hv as [[text [Hv Hx]] | [t [Hv _]]]; [|congruence].
    assert (text = decimal k) by congruence. subst text.
    now apply numeral_relayed_unchanged.
Qed.

(** The string ["7"] is relayed like the number 7. *)
Lemma C10_string_or_boolean_coerced_witness :
  let body := q "{'windSpeedKmh': '7'}" in
  let self := post "/wind-speed" body in
  let x := S754_finite false 7881299347898368 (-50) in
  (path self = "/wind-speed"
   /\ content_length self = inr 21
   /\ read_body 21 (incoming body (Some idle_port))
      = (inr (b body), mkWorld [] [] (Some idle_port))
   /\ json_loads_ascii (b body) = inr (JObject [("windSpeedKmh", JString "7")])
   /\ float_of_str "7" = inr x)
  /\ do_POST json_loads_ascii self (incoming body (Some idle_port))
     = (inr tt,
        mkWorld [] (json_response self 200 (b (q "{'status':'ok'}")))
                (Some (mkSerial [b ("7.0" ++ nl)] None)))
  /\ format_1f x = "7.0".
Proof.
  intros body self x.
  assert (H1 : path self = "/wind-speed") by reflexivity.
  assert (H2 : content_length self = inr 21) by (vm_compute; reflexivity).
  assert (H3 : read_body 21 (incoming body (Some idle_port))
               = (inr (b body), mkWorld [] [] (Some idle_port))) by (vm_compute; reflexivity).
  assert (H4 : json_loads_ascii (b body) = inr (JObject [("windSpeedKmh", JString "7")]))
    by (vm_compute; reflexivity).
  assert (H5 : float_of_str "7" = inr x) by (vm_compute; reflexivity).
  split; [repeat split; assumption|].
  destruct (C10_string_or_boolean_coerced json_loads_ascii self
              (incoming body (Some idle_port)) 21
              (b body) (mkWorld [] [] (Some idle_port)) [("windSpeedKmh", JString "7")]
              (JString "7") x idle_port H1 H2 H3 H4 eq_refl
              (or_introl (ex_intro _ "7" (conj eq_refl H5))) eq_refl eq_refl)
    as [Hrun [_ [_ Hnum]]].
  split; [exact Hrun|].
  apply (Hnum 7 eq_refl). lia.
Defined.

(** A boolean, end to end. *)
Example boolean_relayed :
  let body := q "{'windSpeedKmh': true}" in
  let self := post "/wind-speed" body in
  do_POST json_loads_ascii self (incoming body (Some idle_port))
  = (inr tt,
     mkWorld [] (json_response self 200 (b (q "{'status':'ok'}")))
             (Some (mkSerial [b ("1.0" ++ nl)] None))).
Proof. vm_compute. reflexivity. Qed.

(** ** C8 *)

Lemma shr_1_nonneg mrs : 0 <= shr_m mrs -> 0 <= shr_m (shr_1 mrs).
Proof.
  destruct mrs as [m r s]. simpl.
  destruct m as [|p|p]; [simpl; lia | | intros H; lia].
  intros _. destruct p; simpl; lia.
Qed.

Lemma iter_shr_1_nonneg p : forall mrs,
  0 <= shr_m mrs -> 0 <= shr_m (iter_pos shr_1 p mrs).
Proof.
  induction p as [p IH|p IH|]; intros mrs H; simpl.
  - apply IH, IH. now apply shr_1_nonneg.
  - now apply IH, IH.
  - now apply shr_1_nonneg.
Qed.

Lemma shr_fexp_nonneg m e l : 0 <= m -> 0 <= shr_m (fst (shr_fexp prec emax m e l)).
Proof.
  intros H. unfold shr_fexp, shr.
  assert (H0 : 0 <= shr_m (shr_record_of_loc m l)) by (destruct l as [|[]]; exact H).
  destruct (fexp prec emax (Zdigits2 m + e) - e) as [|p|p]; simpl; try exact H0.
  now apply iter_shr_1_nonneg.
Qed.

Lemma round_nearest_even_nonneg m l : 0 <= m -> 0 <= round_nearest_even m l.
Proof.
  intros H. unfold round_nearest_even.
  destruct l as [|[]]; try lia. destruct (Z.even m); lia.
Qed.

(** Rounding a non-negative mantissa never gives not-a-number. *)
Lemma binary_round_aux_not_nan sx mx ex lx :
  0 <= mx -> binary_round_aux prec emax sx mx ex lx <> S754_nan.
Proof.
  intros H. unfold binary_round_aux.
  pose proof (shr_fexp_nonneg mx ex lx H) as H1.
  destruct (shr_fexp prec emax mx ex lx) as [mrs' e'] eqn:E1. simpl in H1.
  pose proof (shr_fexp_nonneg _ e' loc_Exact
                (round_nearest_even_nonneg _ (loc_of_shr_record mrs') H1)) as H2.
  destruct (shr_fexp prec emax (round_nearest_even (shr_m mrs') (loc_of_shr_record mrs'))
              e' loc_Exact) as [mrs'' e''] eqn:E2. simpl in H2.
  destruct (shr_m mrs'') as [|p|p]; try discriminate; [|lia].
  destruct (e'' <=? emax - prec); discriminate.
Qed.

(** [float()] of an int, when it returns, returns a finite float. *)
Lemma float_of_int_finite k x : float_of_int k = inr x -> is_finite x = true.
Proof.
  unfold float_of_int.
  assert (Hn : binary_normalize prec emax k 0 false <> S754_nan).
  { unfold binary_normalize, binary_round.
    destruct k as [|p|p]; try discriminate;
      destruct (shl_align _ _ _) as [mz ez]; apply binary_round_aux_not_nan; lia. }
  destruct (binary_normalize prec emax k 0 false); intros H; inversion H; subst;
    try reflexivity. congruence.
Qed.

(** C8, as stated, fails: [NaN] is accepted by the decoder, [float()] keeps
    it, and the line [nan] is written to the port. *)
Lemma C8_counterexample :
  let body := q "{'windSpeedKmh': NaN}" in
  let self := post "/wind-speed" body in
  wind_speed_of json_loads_ascii (b body) = inr S754_nan
  /\ is_finite S754_nan = false
  /\ do_POST json_loads_ascii self (incoming body (Some idle_port))
     = (inr tt,
        mkWorld [] (json_response self 200 (b (q "{'status':'ok'}")))
                (Some (mkSerial [b ("nan" ++ nl)] None))).
Proof. vm_compute. repeat split; reflexivity. Qed.

(** C8, amended: every reading that reaches the Forward step is the double
    [float()] returned, and it is written whether it is finite or not: a
    request that produces NaN or an infinity does result in a serial write,
    of the line [nan], [inf] or [-inf].  A reading that comes from a JSON
    int or boolean is always finite. *)
Theorem C8_reading_written_finite_or_not json_loads self w n payload w1 x s :
  path self = "/wind-speed" ->
  content_length self = inr n ->
  read_body n w = (inr payload, w1) ->
  wind_speed_of json_loads payload = inr x ->
  serial_conn w = Some s ->
  fault s = None ->
  do_POST json_loads self w
  = (inr tt,
     mkWorld (rfile w1)
             (wfile w ++ json_response self 200 (b (q "{'status':'ok'}")))
             (Some (mkSerial (tx s ++ [encode_utf8 (format_1f x ++ nl)]) None)))
  /\ (is_finite x = false -> In (format_1f x) ["nan"; "inf"; "-inf"])
  /\ (forall d v, json_loads payload = inr (JObject d) ->
                  dict_get d "windSpeedKmh" = Some v ->
                  (exists k, v = JInt k) \/ (exists t, v = JBool t) ->
                  is_finite x = true).
Proof.
  intros Hp Hn Hr Hx Hs Hf. split; [|split].
  - now apply (do_POST_forwards json_loads self w n payload w1 x s).
  - apply format_1f_not_finite.
  - intros d v Hl Hd Hv. rewrite (wind_speed_of_member _ _ _ _ Hl Hd) in Hx.
    destruct Hv as [[k Hv] | [t Hv]]; subst v; simpl in Hx;
      now apply float_of_int_finite in Hx.
Qed.

(** An infinity spelled as a string. *)
Lemma C8_reading_written_finite_or_not_witness :
  let body := q "{'windSpeedKmh': '-inf'}" in
  let self := post "/wind-speed" body in
  (path self = "/wind-speed"
   /\ content_length self = inr 24
   /\ read_body 24 (incoming body (Some idle_port))
      = (inr (b body), mkWorld [] [] (Some idle_port))
   /\ wind_speed_of json_loads_ascii (b body) = inr (S754_infinity true))
  /\ do_POST json_loads_ascii self (incoming body (Some idle_port))
     = (inr tt,
        mkWorld [] (json_response self 200 (b (q "{'status':'ok'}")))
                (Some (mkSerial [b ("-inf" ++ nl)] None))).
Proof.
  intros body self.
  assert (H1 : path self = "/wind-speed") by reflexivity.
  assert (H2 : content_length self = inr 24) by (vm_compute; reflexivity).
  assert (H3 : read_body 24 (incoming body (Some idle_port))
               = (inr (b body), mkWorld [] [] (Some idle_port))) by (vm_compute; reflexivity).
  assert (H4 : wind_speed_of json_loads_ascii (b body) = inr (S754_infinity true))
    by (vm_compute; reflexivity).
  split; [repeat split; assumption|].
  exact (proj1 (C8_reading_written_finite_or_not json_loads_ascii self
                  (incoming body (Some idle_port)) 24 (b body)
                  (mkWorld [] [] (Some idle_port)) (S754_infinity true) idle_port
                  H1 H2 H3 H4 eq_refl eq_refl)).
Defined.

(** ** C3 *)

Lemma firstn_whole {A} (d : list A) : firstn (List.length d) d = d.
Proof. apply firstn_all. Qed.

Lemma skipn_whole {A} (d : list A) : skipn (List.length d) d = [].
Proof. apply skipn_all. Qed.

Lemma os_write_whole_step i p p' :
  os_write_whole i p = Some p' ->
  exists d, nth_error (pending p) i = Some d
            /\ nonempty d = true
            /\ p' = mkPort (list_set (pending p) i []) (wire p ++ d).
Proof.
  unfold os_write_whole, os_write.
  destruct (nth_error (pending p) i) as [d|] eqn:E; [|discriminate].
  destruct (Nat.leb 1 (List.length d) && Nat.leb (List.length d) (List.length d))%bool eqn:Eb;
    [|discriminate].
  intros H. inversion H; subst. exists d. split; [reflexivity|]. split.
  - apply andb_true_iff in Eb as [Hb _]. unfold nonempty.
    destruct (List.length d); [discriminate | reflexivity].
  - now rewrite firstn_whole, skipn_whole.
Qed.

(** Taking a pending call out of the list takes its data out of what
    remains. *)
Lemma filter_list_set_nil l : forall i d,
  nth_error l i = Some d -> nonempty d = true ->
  Permutation (d :: filter nonempty (list_set l i [])) (filter nonempty l).
Proof.
  induction l as [|a l IH]; intros i d Hn Hd.
  - destruct i; discriminate.
  - destruct i as [|j]; simpl in Hn.
    + inversion Hn; subst a. simpl. rewrite Hd. apply Permutation_refl.
    + simpl. destruct (nonempty a).
      * eapply perm_trans; [apply perm_swap|]. apply perm_skip. now apply IH.
      * now apply IH.
Qed.

Lemma run_whole_invariant sch : forall p p' done,
  run_whole sch p = Some p' ->
  wire p = List.concat done ->
  exists done',
    wire p' = List.concat done'
    /\ Permutation (done' ++ remaining p')%list (done ++ remaining p)%list.
Proof.
  induction sch as [|i sch IH]; intros p p' done Hrun Hw; simpl in Hrun.
  - inversion Hrun; subst. exists done. split; [assumption | apply Permutation_refl].
  - destruct (os_write_whole i p) as [p1|] eqn:E; [|discriminate].
    destruct (os_write_whole_step _ _ _ E) as [d [Hn [Hd Hp1]]].
    assert (Hw1 : wire p1 = List.concat (done ++ [d])).
    { subst p1. simpl. rewrite concat_app, Hw. simpl. now rewrite app_nil_r. }
    destruct (IH p1 p' (done ++ [d])%list Hrun Hw1) as [done' [Hw' Hperm]].
    exists done'. split; [assumption|].
    eapply perm_trans; [exact Hperm|].
    rewrite <- app_assoc. apply Permutation_app_head.
    subst p1. unfold remaining. simpl.
    now apply filter_list_set_nil.
Qed.

Lemma filter_nonempty_all l :
  Forall (fun m => m <> []) l -> filter nonempty l = l.
Proof.
  induction 1 as [|m l Hm _ IH]; [reflexivity|]. simpl.
  destruct m; [congruence|]. simpl. now rewrite IH.
Qed.

Lemma filter_nonempty_none l :
  forallb (fun d => Nat.eqb (List.length d) 0) l = true -> filter nonempty l = [].
Proof.
  induction l as [|d l IH]; [reflexivity|]. simpl. intros H.
  apply andb_true_iff in H as [Hd Hl]. unfold nonempty at 1. rewrite Hd. simpl. now apply IH.
Qed.

(** The handler never sends an empty line. *)
Lemma message_for_nonempty x : message_for x <> [].
Proof.
  unfold message_for. rewrite encode_utf8_app. intros H.
  apply app_eq_nil in H as [_ H]. vm_compute in H. discriminate.
Qed.


(** The handler of a request makes at most one write call, and the call
    carries the line of a reading. *)
Lemma written_by_line json_loads self body :
  written_by json_loads self body = []
  \/ exists x, written_by json_loads self body = [message_for x].
Proof.
  unfold written_by.
  destruct (do_POST json_loads self (create_server idle_port (mkWorld body [] None)))
    as [r w'] eqn:E.
  destruct (do_POST_outcome _ _ _ _ _ E)
    as [[e [_ [_ Hs]]] | [_ [resp [_ [[Hs _] | [_ [s [x [Hs [_ Hs']]]]]]]]]]; simpl snd.
  - rewrite Hs. now left.
  - rewrite Hs. now left.
  - rewrite Hs'. simpl in Hs. inversion Hs; subst s. right. now exists x.
Qed.

Lemma lines_of_lines json_loads reqs :
  Forall (fun m => exists x, m = message_for x) (lines_of json_loads reqs)
  /\ (List.length (lines_of json_loads reqs) <= List.length reqs)%nat.
Proof.
  unfold lines_of. induction reqs as [|rq reqs [IH1 IH2]]; [split; [constructor | reflexivity]|].
  simpl. destruct (written_by_line json_loads (fst rq) (snd rq)) as [H | [x H]]; rewrite H; simpl.
  - split; [exact IH1 | lia].
  - split; [|lia]. constructor; [now exists x | exact IH1].
Qed.



(** ** C6 *)

Lemma exited_stays evs : forall p code, at_ p = Exited code -> run evs p = p.
Proof.
  induction evs as [|ev evs IH]; intros p code Ha; [reflexivity|].
  simpl. assert (Hs : step p ev = p) by (unfold step; rewrite Ha; destruct ev; reflexivity).
  rewrite Hs. now apply (IH p code).
Qed.

(** When the port cannot be opened the process exits with status 1, and
    the listener is never started. *)
Lemma startup_failure_exits_1 evs :
  at_ (main (Open_fails :: evs)) = Exited 1
  /\ listening (main (Open_fails :: evs)) = false.
Proof.
  unfold main. simpl. change (step start Open_fails) with (mkProcess (Exited 1) false false false false 0).
  rewrite (exited_stays evs (mkProcess (Exited 1) false false false false 0) 1 eq_refl).
  split; reflexivity.
Qed.

(** A keyboard interrupt before the handlers are installed leaves through
    the last lines of the module, with status 0. *)
Lemma early_interrupt_exits_0 :
  at_ (main [Signal SIGINT]) = Exited 0
  /\ at_ (main [Open_ok; Signal SIGINT]) = Exited 0.
Proof. split; reflexivity. Qed.

Lemma held_step p ev : held p -> held (step p ev).
Proof.
  intros (Ha & He & Hs & Hl & Hw). unfold step. rewrite Ha.
  destruct ev as [ | | |s| ]; try (repeat split; assumption).
  - unfold shutdown_handler, shutdown. rewrite He.
    repeat split; simpl; auto; lia.
  - destruct (waiting p) as [|k] eqn:Ew; [lia|].
    rewrite He. unfold held. rewrite Ew. repeat split; auto; lia.
Qed.

Lemma held_run evs : forall p, held p -> held (run evs p).
Proof.
  induction evs as [|ev evs IH]; intros p H; [exact H|].
  simpl. apply IH. now apply held_step.
Qed.

(** C6 fails on the code for the signal-triggered shutdown: once [main]
    serves, a SIGINT or SIGTERM runs [shutdown_handler] on the main thread;
    [server.shutdown()] then waits for the loop of [serve_forever], which
    is the thread it runs on.  Whatever happens afterwards, the process is
    still serving: it never exits with status 0, and the port stays
    open. *)
Theorem C6_signal_shutdown_never_exits s evs :
  let p := main (Open_ok :: Setup_done :: Signal s :: evs) in
  at_ p = Serving /\ serial_is_open p = true /\ listening p = true.
Proof.
  cbv zeta.
  change (main (Open_ok :: Setup_done :: Signal s :: evs))
    with (run evs (mkProcess Serving true true true false 1)).
  assert (H : held (mkProcess Serving true true true false 1))
    by (repeat split; simpl; auto).
  destruct (held_run evs _ H) as (Ha & _ & Hs & Hl & _). auto.
Qed.

(** * Further properties of the handler *)

(** ** Every outcome of a request *)

(** With the client connected, a run of the dispatch either raises before
    anything is sent or written, or sends one of seven responses; only the
    200 goes with a write, of one line. *)
Lemma handle_one_request_outcome json_loads error_page self w r w' :
  handle_one_request json_loads error_page self w = (r, w') ->
  (exists e, r = inl e /\ wfile w' = wfile w /\ serial_conn w' = serial_conn w)
  \/ (r = inr tt
      /\ exists resp,
           wfile w' = (wfile w ++ resp)%list
           /\ ((serial_conn w' = serial_conn w
                /\ (resp = json_response self 404 (b (q "{'error':'not_found'}"))
                    \/ resp = json_response self 400 (b (q "{'error':'invalid_payload'}"))
                    \/ resp = options_response self
                    \/ resp = error_response error_page self 501
                    \/ (serial_conn w = None
                        /\ resp = json_response self 500 (serial_error_body ""))
                    \/ (exists s msg, serial_conn w = Some s /\ fault s = Some msg
                          /\ resp = json_response self 500 (serial_error_body msg))))
               \/ (resp = json_response self 200 (b (q "{'status':'ok'}"))
                   /\ exists s x, serial_conn w = Some s /\ fault s = None
                        /\ serial_conn w'
                           = Some (mkSerial (tx s ++ [message_for x]) None)))).
Proof.
  unfold handle_one_request.
  destruct (String.eqb (command self) "POST") eqn:Ec.
  - destruct (String.eqb (path self) "/wind-speed") eqn:Ep.
    + apply String.eqb_eq in Ep. rewrite (do_POST_wind_speed _ _ _ Ep).
      destruct (content_length self) as [e|n].
      { intros H; inversion H; subst. left. exists e. auto. }
      destruct (read_body n w) as [[e|payload] w1] eqn:Er;
        destruct (read_body_frame _ _ _ _ Er) as [Hw Hs].
      { destruct (caught_by payload_errors e); intros H; inversion H; subst.
        - right. split; [reflexivity|]. eexists. split; [simpl; rewrite Hw; reflexivity|].
          left. split; [exact Hs | tauto].
        - left. exists e. auto. }
      destruct (wind_speed_of json_loads payload) as [e|x].
      { destruct (caught_by payload_errors e); intros H; inversion H; subst.
        - right. split; [reflexivity|]. eexists. split; [simpl; rewrite Hw; reflexivity|].
          left. split; [exact Hs | tauto].
        - left. exists e. auto. }
      unfold forwarded. destruct (serial_conn w1) as [s|] eqn:Es1.
      * destruct (fault s) as [msg|] eqn:Ef; intros H; inversion H; subst.
        -- right. split; [reflexivity|]. eexists. split; [simpl; rewrite Hw; reflexivity|].
           left. split; [simpl; congruence|].
           do 5 right. exists s, msg. repeat split; congruence.
        -- right. split; [reflexivity|]. eexists. split; [simpl; rewrite Hw; reflexivity|].
           right. split; [reflexivity|]. exists s, x. repeat split; congruence.
      * intros H; inversion H; subst.
        right. split; [reflexivity|]. eexists. split; [simpl; rewrite Hw; reflexivity|].
        left. split; [simpl; congruence|].
        do 4 right. left. split; [congruence | reflexivity].
    + assert (Hp : path self <> "/wind-speed").
      { intros Hq. rewrite Hq in Ep. rewrite String.eqb_refl in Ep. discriminate. }
      rewrite (do_POST_other_path _ _ _ Hp). intros H; inversion H; subst.
      right. split; [reflexivity|]. eexists. split; [reflexivity|].
      left. split; [reflexivity | tauto].
  - destruct (String.eqb (command self) "OPTIONS") eqn:Eo.
    + rewrite do_OPTIONS_run. intros H; inversion H; subst.
      right. split; [reflexivity|]. eexists. split; [reflexivity|].
      left. split; [reflexivity | tauto].
    + rewrite send_error_run. intros H; inversion H; subst.
      right. split; [reflexivity|]. eexists. split; [reflexivity|].
      left. split; [reflexivity | tauto].
Qed.



(** ** The shape of a response *)

Lemma json_response_complete self code body :
  complete_response (json_response self code body) = true.
Proof. reflexivity. Qed.

Lemma json_response_no_length self code body v :
  ~ carries (json_response self code body) "Content-Length" v.
Proof.
  unfold carries, json_response, response_head. simpl.
  intros H. repeat (destruct H as [H|H]; [discriminate H|]). exact H.
Qed.



(** ** The lines on the port *)



(** ** The exception the first [except] clause lets through *)

Lemma float_of_int_raises k e : float_of_int k = inl e -> e = OverflowError.
Proof.
  unfold float_of_int. destruct (binary_normalize prec emax k 0 false); congruence.
Qed.

(** Indexing and coercion raise outside the [except] clause only for an
    int that overflows. *)
Lemma coercion_uncaught data e :
  match getitem data "windSpeedKmh" with
  | inl e0 => inl e0
  | inr item => float_of item
  end = inl e ->
  caught_by payload_errors e = false ->
  e = OverflowError
  /\ exists d k, data = JObject d /\ dict_get d "windSpeedKmh" = Some (JInt k)
                 /\ float_of_int k = inl OverflowError.
Proof.
  unfold getitem.
  destruct data as [ |t|k|x|s|l|d];
    try (intros H Hc; inversion H; subst e; discriminate Hc).
  destruct (dict_get d "windSpeedKmh") as [v|] eqn:Ed;
    [|intros H Hc; inversion H; subst e; discriminate Hc].
  destruct v as [ |t|k|x|s|l|d']; simpl;
    try (intros H Hc; inversion H; subst e; discriminate Hc).
  - destruct t; vm_compute; intros H; discriminate H.
  - intros H _. pose proof (float_of_int_raises _ _ H) as He. subst e.
    split; [reflexivity|]. exists d, k. auto.
  - intros H Hc. apply float_of_str_raises in H. subst e. discriminate Hc.
Qed.



(** ** The Content-Length header and the bytes read *)

(** X5.  Without a body length (the header absent, or zero) the handler
    reads nothing and decodes the two bytes of an empty object instead:
    whatever the client sent after the headers, the answer is 400
    invalid_payload, given only that the decoder reads an empty object as
    an empty object. *)
Theorem no_length_no_body json_loads self w :
  path self = "/wind-speed" ->
  content_length self = inr 0 ->
  json_loads (b "{}") = inr (JObject []) ->
  do_POST json_loads self w
  = (inr tt, respond w (json_response self 400 (b (q "{'error':'invalid_payload'}")))).
Proof.
  intros Hp Hn Hl. rewrite (do_POST_wind_speed _ _ _ Hp), Hn.
  change (read_body 0 w) with (@inr exn bytes (b "{}"), w).
  unfold wind_speed_of. rewrite Hl. reflexivity.
Qed.

(** A POST that carries a good reading but no Content-Length header. *)
Lemma no_length_no_body_witness :
  let body := q "{'windSpeedKmh': 7}" in
  let self := mkHandler "POST" "/wind-speed" [("Host", "bridge.local:5000")]
                "BaseHTTP/0.6 Python/3.12.3" "Tue, 03 Nov 2026 09:00:00 GMT" in
  (path self = "/wind-speed"
   /\ content_length self = inr 0
   /\ json_loads_ascii (b "{}") = inr (JObject []))
  /\ do_POST json_loads_ascii self (incoming body (Some idle_port))
     = (inr tt,
        mkWorld (b body) (json_response self 400 (b (q "{'error':'invalid_payload'}")))
                (Some idle_port)).
Proof.
  intros body self.
  assert (H1 : path self = "/wind-speed") by reflexivity.
  assert (H2 : content_length self = inr 0) by (vm_compute; reflexivity).
  assert (H3 : json_loads_ascii (b "{}") = inr (JObject [])) by (vm_compute; reflexivity).
  split; [repeat split; assumption|].
  exact (no_length_no_body json_loads_ascii self (incoming body (Some idle_port)) H1 H2 H3).
Defined.

(** X6.  A Content-Length below -1, down to the least index -2^63, is
    answered 400: the read raises ValueError inside the [try], before the
    decoder is called; no byte is read and nothing is written. *)
Theorem negative_length_rejected json_loads self w n :
  path self = "/wind-speed" ->
  content_length self = inr n ->
  - 2 ^ 63 <= n < -1 ->
  do_POST json_loads self w
  = (inr tt, respond w (json_response self 400 (b (q "{'error':'invalid_payload'}")))).
Proof.
  intros Hp Hn [_ Hlt]. rewrite (do_POST_wind_speed _ _ _ Hp), Hn.
  unfold read_body, rfile_read.
  destruct (n =? 0) eqn:E0; [apply Z.eqb_eq in E0; lia|].
  destruct (n <? -1) eqn:E1; [|apply Z.ltb_ge in E1; lia].
  reflexivity.
Qed.

Lemma negative_length_rejected_witness :
  let body := q "{'windSpeedKmh': 7}" in
  let self := post_with_length "/wind-speed" "-5" in
  (path self = "/wind-speed" /\ content_length self = inr (-5) /\ - 2 ^ 63 <= -5 < -1)
  /\ do_POST json_loads_ascii self (incoming body (Some idle_port))
     = (inr tt,
        mkWorld (b body) (json_response self 400 (b (q "{'error':'invalid_payload'}")))
                (Some idle_port)).
Proof.
  intros body self.
  assert (H1 : path self = "/wind-speed") by reflexivity.
  assert (H2 : content_length self = inr (-5)) by (vm_compute; reflexivity).
  assert (H3 : - 2 ^ 63 <= -5 < -1) by lia.
  split; [exact (conj H1 (conj H2 H3))|].
  exact (negative_length_rejected json_loads_ascii self (incoming body (Some idle_port)) (-5)
           H1 H2 H3).
Defined.

Lemma read_body_prefix n w :
  0 <= n ->
  read_body n w
  = (inr (if n =? 0 then b "{}" else firstn (Z.to_nat n) (rfile w)),
     mkWorld (skipn (Z.to_nat n) (rfile w)) (wfile w) (serial_conn w)).
Proof.
  intros Hn. unfold read_body, rfile_read, ret.
  destruct (n =? 0) eqn:E0.
  - apply Z.eqb_eq in E0. subst n. destruct w; reflexivity.
  - destruct (n <? -1) eqn:E1; [apply Z.ltb_lt in E1; lia|].
    destruct (n =? -1) eqn:E2; [apply Z.eqb_eq in E2; lia|]. reflexivity.
Qed.

(** X7.  The handler reads the announced number of bytes and no more: when
    two connections both deliver the same announced body (of a length
    below the largest index 2^63-1), whatever follows it on either, the
    outcome, the response and the effect on the port are the same, and
    what follows the body is left unread. *)
Theorem only_announced_bytes_read json_loads self w1 w2 body rest1 rest2 :
  path self = "/wind-speed" ->
  content_length self = inr (Z.of_nat (List.length body)) ->
  Z.of_nat (List.length body) < 2 ^ 63 - 1 ->
  rfile w1 = (body ++ rest1)%list ->
  rfile w2 = (body ++ rest2)%list ->
  wfile w1 = wfile w2 ->
  serial_conn w1 = serial_conn w2 ->
  fst (do_POST json_loads self w1) = fst (do_POST json_loads self w2)
  /\ wfile (snd (do_POST json_loads self w1)) = wfile (snd (do_POST json_loads self w2))
  /\ serial_conn (snd (do_POST json_loads self w1))
     = serial_conn (snd (do_POST json_loads self w2))
  /\ rfile (snd (do_POST json_loads self w1)) = rest1
  /\ rfile (snd (do_POST json_loads self w2)) = rest2.
Proof.
  intros Hp Hn _ Hr1 Hr2 Hw Hs.
  assert (H0 : 0 <= Z.of_nat (List.length body)) by lia.
  rewrite !(do_POST_wind_speed _ _ _ Hp), Hn, !(read_body_prefix _ _ H0).
  rewrite Nat2Z.id, Hr1, Hr2, Hw, Hs.
  rewrite !firstn_app, !skipn_app, Nat.sub_diag, firstn_all, skipn_all.
  cbn [firstn skipn app]. rewrite !app_nil_r.
  destruct (wind_speed_of json_loads
              (if Z.of_nat (List.length body) =? 0 then b "{}" else body)) as [e|x].
  - destruct (caught_by payload_errors e); simpl; auto 10.
  - unfold forwarded. simpl.
    destruct (serial_conn w2) as [s|]; [destruct (fault s)|]; simpl; auto 10.
Qed.

(** Two pipelined requests on one connection: the first is answered from
    its own bytes. *)
Lemma only_announced_bytes_read_witness :
  let body := q "{'windSpeedKmh': 7}" in
  let next := "POST /wind-speed HTTP/1.1" in
  let self := post "/wind-speed" body in
  let alone := incoming body (Some idle_port) in
  let pipelined := incoming (body ++ next) (Some idle_port) in
  (path self = "/wind-speed"
   /\ content_length self = inr (Z.of_nat (List.length (b body)))
   /\ Z.of_nat (List.length (b body)) < 2 ^ 63 - 1
   /\ rfile pipelined = (b body ++ b next)%list
   /\ rfile alone = (b body ++ [])%list)
  /\ wfile (snd (do_POST json_loads_ascii self pipelined))
     = wfile (snd (do_POST json_loads_ascii self alone))
  /\ rfile (snd (do_POST json_loads_ascii self pipelined)) = b next.
Proof.
  intros body next self alone pipelined.
  assert (H1 : path self = "/wind-speed") by reflexivity.
  assert (H2 : content_length self = inr (Z.of_nat (List.length (b body))))
    by (vm_compute; reflexivity).
  assert (H3 : Z.of_nat (List.length (b body)) < 2 ^ 63 - 1) by (vm_compute; reflexivity).
  assert (H4 : rfile pipelined = (b body ++ b next)%list) by (vm_compute; reflexivity).
  assert (H5 : rfile alone = (b body ++ [])%list) by (vm_compute; reflexivity).
  split; [exact (conj H1 (conj H2 (conj H3 (conj H4 H5))))|].
  destruct (only_announced_bytes_read json_loads_ascii self pipelined alone (b body) (b next) []
              H1 H2 H3 H4 H5 eq_refl eq_refl) as [_ [Hw [_ [Hr _]]]].
  split; [exact Hw | exact Hr].
Defined.

(** ** A length written in decimal is read back *)



(** ** The headers the handler looks at *)

(** X9.  Of the request headers only Content-Length is read: two
    requests with the same method and path whose headers give the same
    Content-Length are handled identically, whatever their Content-Type,
    Origin or other headers say. *)
Theorem only_content_length_is_read json_loads error_page self hs w :
  headers_get hs "Content-Length" "0" = headers_get (headers self) "Content-Length" "0" ->
  handle_one_request json_loads error_page (with_headers self hs) w
  = handle_one_request json_loads error_page self w.
Proof.
  intros H.
  unfold handle_one_request, do_POST, do_OPTIONS, send_error, send_response, with_headers.
  cbn [command path headers version_string date_time_string].
  rewrite H. reflexivity.
Qed.

(** A reading sent as text/plain with an Origin header. *)
Lemma only_content_length_is_read_witness :
  let body := q "{'windSpeedKmh': 7}" in
  let self := post "/wind-speed" body in
  let hs := [("Origin", "http://localhost:3000"); ("Content-Type", "text/plain");
             ("Content-Length", "19")] in
  headers_get hs "Content-Length" "0" = headers_get (headers self) "Content-Length" "0"
  /\ handle_one_request json_loads_ascii plain_error_page (with_headers self hs)
       (incoming body (Some idle_port))
     = handle_one_request json_loads_ascii plain_error_page self
         (incoming body (Some idle_port)).
Proof.
  intros body self hs.
  assert (H : headers_get hs "Content-Length" "0"
              = headers_get (headers self) "Content-Length" "0") by (vm_compute; reflexivity).
  split; [exact H|].
  exact (only_content_length_is_read json_loads_ascii plain_error_page self hs
           (incoming body (Some idle_port)) H).
Defined.

Lemma str_lower_char_idem c : str_lower_char (str_lower_char c) = str_lower_char c.
Proof. destruct c as [[] [] [] [] [] [] [] []]; vm_compute; reflexivity. Qed.

Lemma str_lower_idem s : str_lower (str_lower s) = str_lower s.
Proof.
  induction s as [|c s IH]; [reflexivity|]. simpl. now rewrite str_lower_char_idem, IH.
Qed.

Lemma headers_get_lower_names hs name failobj :
  headers_get (lower_names hs) name failobj = headers_get hs name failobj.
Proof.
  induction hs as [|[k v] hs IH]; [reflexivity|]. simpl.
  rewrite str_lower_idem, IH. reflexivity.
Qed.

(** X10.  Header names are matched without regard to letter case: a
    request is handled the same when all its header names are written in
    lower case. *)
Theorem header_names_any_case json_loads error_page self w :
  handle_one_request json_loads error_page (with_headers self (lower_names (headers self))) w
  = handle_one_request json_loads error_page self w.
Proof.
  unfold handle_one_request, do_POST, do_OPTIONS, send_error, send_response, with_headers.
  cbn [command path headers version_string date_time_string].
  rewrite headers_get_lower_names. reflexivity.
Qed.

(** ** After [create_server] *)

(** X11.  Once [create_server] has stored the port in the class
    attribute, a 500 answer can only come from a failing write: its details
    are the message of the SerialException, never the empty text of the
    assertion. *)
Theorem after_create_server_500_is_a_write_failure
        json_loads error_page self ser w0 r w' resp :
  handle_one_request json_loads error_page self (create_server ser w0) = (r, w') ->
  wfile w' = (wfile w0 ++ resp)%list ->
  status_of resp = Some 500 ->
  exists msg, fault ser = Some msg
              /\ resp = json_response self 500 (serial_error_body msg)
              /\ serial_conn w' = Some ser.
Proof.
  intros Hrun Hw Hst.
  destruct (handle_one_request_outcome _ _ _ _ _ _ Hrun)
    as [[e [_ [Hw' _]]] | [_ [resp' [Hw' Hcase]]]].
  - simpl in Hw'. rewrite Hw' in Hw.
    rewrite <- (app_nil_r (wfile w0)) in Hw at 1. apply app_inv_head in Hw.
    subst resp. discriminate Hst.
  - simpl in Hw'. rewrite Hw' in Hw. apply app_inv_head in Hw. subst resp'.
    destruct Hcase as [[Hs [H|[H|[H|[H|[[Hn _]|[s [msg [Hsome [Hf H]]]]]]]]]] | [H _]];
      try (subst resp; discriminate Hst).
    + discriminate Hn.
    + simpl in Hsome. inversion Hsome; subst s.
      exists msg. repeat split; assumption.
Qed.

Lemma after_create_server_500_is_a_write_failure_witness :
  let body := q "{'windSpeedKmh': 7}" in
  let self := post "/wind-speed" body in
  let ser := mkSerial [] (Some "write failed: [Errno 5] Input/output error") in
  let resp := json_response self 500
                (b (q "{'error': 'serial_error', 'details': 'write failed: [Errno 5] Input/output error'}")) in
  (handle_one_request json_loads_ascii plain_error_page self
     (create_server ser (incoming body None))
   = (inr tt, mkWorld [] resp (Some ser))
   /\ status_of resp = Some 500)
  /\ exists msg, fault ser = Some msg
                 /\ resp = json_response self 500 (serial_error_body msg)
                 /\ Some ser = Some ser.
Proof.
  intros body self ser resp.
  assert (H1 : handle_one_request json_loads_ascii plain_error_page self
                 (create_server ser (incoming body None))
               = (inr tt, mkWorld [] resp (Some ser))) by (vm_compute; reflexivity).
  assert (H2 : status_of resp = Some 500) by reflexivity.
  split; [split; assumption|].
  exact (after_create_server_500_is_a_write_failure json_loads_ascii plain_error_page self ser
           (incoming body None) _ _ resp H1 eq_refl H2).
Defined.

(** ** The 500 body is JSON that gives the details back *)

Lemma scanstring_escape_char c l :
  scanstring (chars (escape_char c) ++ l) = scan_cons c (scanstring l).
Proof. destruct c as [[] [] [] [] [] [] [] []]; reflexivity. Qed.

(** Decoding undoes the escaping of a string. *)
Lemma scanstring_escape_chars s rest :
  scanstring (chars (escape_chars s) ++ dquote :: rest) = Got s rest.
Proof.
  induction s as [|c s IH].
  - reflexivity.
  - simpl escape_chars. rewrite chars_app, <- app_assoc, scanstring_escape_char, IH.
    reflexivity.
Qed.

Lemma escape_char_ascii c : forallb json_char (chars (escape_char c)) = true.
Proof. destruct c as [[] [] [] [] [] [] [] []]; reflexivity. Qed.

Lemma escape_chars_ascii s : forallb json_char (chars (escape_chars s)) = true.
Proof.
  induction s as [|c s IH]; [reflexivity|].
  simpl escape_chars. now rewrite chars_app, forallb_app, escape_char_ascii, IH.
Qed.

(** A value that starts with a quote is a string. *)
Lemma scan_once_string depth fuel r :
  scan_once depth (S fuel) (dquote :: r)
  = match scanstring r with
    | Got s rest => Got (JString s) rest
    | Fails e => Fails e
    | Outside => Outside
    end.
Proof. reflexivity. Qed.

(** An object that starts with a member is read by the member loop. *)
Lemma scan_once_object depth fuel r :
  scan_once (S depth) (S fuel) ("{"%char :: dquote :: r)
  = members_at (scan_once depth fuel) fuel [] (dquote :: r).
Proof. reflexivity. Qed.

Lemma members_at_member value n acc r :
  members_at value (S n) acc (dquote :: r)
  = match scanstring r with
    | Got key r1 =>
        match skip_ws r1 with
        | ":"%char :: r2 =>
            match value (skip_ws r2) with
            | Got v r3 =>
                match skip_ws r3 with
                | "}"%char :: r4 => Got (JObject (dict_set acc key v)) r4
                | ","%char :: r4 => members_at value n (dict_set acc key v) (skip_ws r4)
                | _ => Fails JSONDecodeError
                end
            | other => other
            end
        | _ => Fails JSONDecodeError
        end
    | Fails e => Fails e
    | Outside => Outside
    end.
Proof. reflexivity. Qed.

(** One member whose value is a string, written as [json.dumps] writes it. *)
Lemma members_at_str_member depth fuel n acc k v rest :
  members_at (scan_once depth (S fuel)) (S n) acc
    (dquote :: chars (escape_chars k)
       ++ dquote :: ":"%char :: " "%char :: dquote :: chars (escape_chars v) ++ dquote :: rest)
  = match skip_ws rest with
    | "}"%char :: r4 => Got (JObject (dict_set acc k (JString v))) r4
    | ","%char :: r4 =>
        members_at (scan_once depth (S fuel)) n (dict_set acc k (JString v)) (skip_ws r4)
    | _ => Fails JSONDecodeError
    end.
Proof.
  rewrite members_at_member, scanstring_escape_chars.
  change (skip_ws (":"%char :: " "%char :: dquote :: chars (escape_chars v) ++ dquote :: rest))
    with (":"%char :: " "%char :: dquote :: chars (escape_chars v) ++ dquote :: rest)%list.
  cbv iota beta.
  change (skip_ws (" "%char :: dquote :: chars (escape_chars v) ++ dquote :: rest))
    with (dquote :: chars (escape_chars v) ++ dquote :: rest)%list.
  rewrite scan_once_string, scanstring_escape_chars. reflexivity.
Qed.

(** The text of the 500 body. *)
Lemma serial_error_text details :
  chars (json_dumps [("error", "serial_error"); ("details", details)])
  = ("{"%char :: dquote :: chars (escape_chars "error")
       ++ dquote :: ":"%char :: " "%char :: dquote :: chars (escape_chars "serial_error")
       ++ dquote :: ","%char :: " "%char :: dquote :: chars (escape_chars "details")
       ++ dquote :: ":"%char :: " "%char :: dquote :: chars (escape_chars details)
       ++ dquote :: ["}"%char])%list.
Proof.
  unfold json_dumps, dumps_members, dumps_str.
  change (escape_chars "error") with "error".
  change (escape_chars "serial_error") with "serial_error".
  change (escape_chars "details") with "details".
  cbn [append chars list_ascii_of_string app].
  unfold chars. cbn [append list_ascii_of_string app].
  do 41 f_equal.
  change (chars ((escape_chars details ++ String dquote "") ++ "}")
          = (chars (escape_chars details) ++ [dquote; "}"%char])%list).
  rewrite !chars_app, <- app_assoc. reflexivity.
Qed.

Lemma json_char_is_ascii l :
  forallb json_char l = true -> forallb (fun c => code c <? 128) l = true.
Proof.
  induction l as [|c l IH]; [reflexivity|]. cbn [forallb]. intros H.
  apply andb_true_iff in H as [Hc Hl]. unfold json_char in Hc.
  apply andb_true_iff in Hc as [_ Hc]. rewrite (IH Hl), andb_true_r. lia.
Qed.

Lemma serial_error_text_ascii details :
  forallb json_char (chars (json_dumps [("error", "serial_error"); ("details", details)])) = true.
Proof.
  rewrite serial_error_text.
  change (forallb json_char
            ((("{"%char :: dquote :: chars (escape_chars "error")
               ++ dquote :: ":"%char :: " "%char :: dquote :: chars (escape_chars "serial_error")
               ++ dquote :: ","%char :: " "%char :: dquote :: chars (escape_chars "details")
               ++ dquote :: ":"%char :: " "%char :: [dquote])
              ++ chars (escape_chars details) ++ dquote :: ["}"%char])%list) = true).
  rewrite !forallb_app, escape_chars_ascii. reflexivity.
Qed.

(** X12. The body of every 500 response is JSON text that the reference
    decoder reads back as the object with exactly the two members the code
    puts there: error = serial_error and details = the text of the failure,
    whatever characters (quotes, backslashes, line ends, control or non-ASCII
    characters) that text holds. *)
Theorem serial_error_body_decodes (details : string) :
  json_loads_ascii (serial_error_body details)
  = inr (JObject [("error", JString "serial_error"); ("details", JString details)]).
Proof.
  unfold json_loads_ascii, serial_error_body.
  rewrite (encode_utf8_ascii _ (json_char_is_ascii _ (serial_error_text_ascii details))).
  rewrite string_of_list_byte_of_string.
  unfold loads_text. fold json_char.
  rewrite serial_error_text_ascii, serial_error_text.
  set (tail := (chars (escape_chars "error")
       ++ dquote :: ":"%char :: " "%char :: dquote :: chars (escape_chars "serial_error")
       ++ dquote :: ","%char :: " "%char :: dquote :: chars (escape_chars "details")
       ++ dquote :: ":"%char :: " "%char :: dquote :: chars (escape_chars details)
       ++ dquote :: ["}"%char])%list).
  change (skip_ws ("{"%char :: dquote :: tail)) with ("{"%char :: dquote :: tail).
  cbn [List.length]. generalize (List.length tail). intros m.
  change max_depth with (S 199). rewrite scan_once_object.
  subst tail. rewrite members_at_str_member.
  change (skip_ws (","%char :: " "%char :: dquote :: chars (escape_chars "details")
                   ++ dquote :: ":"%char :: " "%char :: dquote :: chars (escape_chars details)
                   ++ dquote :: ["}"%char]))
    with (","%char :: " "%char :: dquote :: chars (escape_chars "details")
          ++ dquote :: ":"%char :: " "%char :: dquote :: chars (escape_chars details)
          ++ dquote :: ["}"%char])%list.
  cbv iota beta.
  change (skip_ws (" "%char :: dquote :: chars (escape_chars "details")
                   ++ dquote :: ":"%char :: " "%char :: dquote :: chars (escape_chars details)
                   ++ dquote :: ["}"%char]))
    with (dquote :: chars (escape_chars "details")
          ++ dquote :: ":"%char :: " "%char :: dquote :: chars (escape_chars details)
          ++ dquote :: ["}"%char])%list.
  rewrite members_at_str_member. reflexivity.
Qed.

(** ** Requests one after another *)

(** One request on a fresh connection, its handler returning: a 200 goes
    with one more line on the port, anything else leaves what the port has
    received as it is. *)
Lemma request_port_step json_loads error_page rq conn :
  let run := handle_one_request json_loads error_page (handler rq)
               (mkWorld (arriving rq) [] (at_request conn (port_fault rq))) in
  fst run = inr tt ->
  (status_of (wfile (snd run)) = Some 200
   /\ exists x, sent (serial_conn (snd run)) = (sent conn ++ [message_for x])%list)
  \/ (status_of (wfile (snd run)) <> Some 200 /\ sent (serial_conn (snd run)) = sent conn).
Proof.
  cbv zeta.
  assert (Hsent : sent (at_request conn (port_fault rq)) = sent conn)
    by (destruct conn; reflexivity).
  destruct (handle_one_request json_loads error_page (handler rq)
              (mkWorld (arriving rq) [] (at_request conn (port_fault rq)))) as [r w'] eqn:E.
  simpl fst; simpl snd. intros Hret.
  destruct (handle_one_request_outcome _ _ _ _ _ _ E)
    as [[e [Hr [Hw Hs]]] | [_ [resp [Hw [[Hs Hc] | [Hresp [s [x [Hs [_ Hs']]]]]]]]]];
    simpl in Hw, Hs.
  - congruence.
  - right. rewrite Hw, Hs, Hsent. split; [|reflexivity].
    destruct Hc as [H|[H|[H|[H|[[_ H]|[s [msg [_ [_ H]]]]]]]]]; rewrite H; discriminate.
  - left. rewrite Hw, Hs'. split; [rewrite Hresp; reflexivity|].
    exists x. rewrite <- Hsent, Hs. reflexivity.
Qed.


